(** * Video merger bot: upload sessions, merge pipeline and cleanup

    A shallow embedding of [src/video_processor.py] and [src/bot.py].

    The handlers are Python coroutines that mutate a module-level dictionary
    ([user_videos]), the scratch file system under [./temp], and talk to two
    external parties: the chat gateway and the [ffmpeg] executable.  They are
    embedded as computations in a state-and-exception monad over a record
    holding exactly these pieces, plus a trace of the observable actions.

    What the program cannot decide by itself is left to the environment
    record [OS]: the identifiers [uuid.uuid4()] hands out, what
    [os.path.abspath] answers, what an [ffmpeg] run does (exit code, error
    stream, the file it leaves at its output path) and which removals the
    operating system refuses.  Every theorem quantifies over it.

    Conventions.
    - An exception is represented by its [str(e)], the only thing the program
      ever does with one.
    - Chat messages ([reply_text], [edit_text], [reply_video]) are recorded in
      the trace and are taken to be delivered.
    - Creating a directory and writing a file succeed; reading and removing
      may fail.
    - A run of the media tool touches the disk at its output path only.
    - A handler runs from its first to its last statement without another
      handler interleaving.
    - Which update reaches which handler is decided by the chat library and
      is not modelled: a handler is given what it reads from its update, the
      sender's id and the video. *)

From Stdlib Require Import ZArith String List Lia.
From stdpp Require Import base option list gmap strings pretty.

(** ** The world the program runs in *)

Module Runtime.

(** [str(e)] of a raised exception. *)
Definition exn := string.

Inductive level := LvlInfo | LvlError.

(** What one run of the external media tool does: [process.returncode],
    [stderr.decode()], and the bytes it leaves at its output path, if any. *)
Record ProcResult := mkProc {
  returncode : Z;
  stderr : string;
  output : option string }.

Inductive event :=
| EvReply (text : string)                       (* update.message.reply_text *)
| EvEdit (text : string)                        (* status_message.edit_text *)
| EvReplyVideo (path content caption : string)  (* update.message.reply_video *)
| EvLog (lvl : level) (text : string)           (* logger.info / logger.error *)
| EvDownload (path : string)                    (* download_to_drive *)
| EvWriteFile (path content : string)           (* open(path, "w") ... write *)
| EvSpawn (argv : list string)                  (* create_subprocess_exec *)
| EvRemove (path : string) (ok : bool).         (* os.remove / Path.unlink *)

(** What a path names on disk. *)
Inductive node :=
| File (bytes : string)
| Dir.

(** The pending uploads of every user, the disk, how many identifiers
    [uuid4] has handed out, and what has been observed so far. *)
Record State := mkState {
  user_videos : gmap Z (list string);
  files : gmap string node;
  uuid_count : nat;
  trace : list event }.

Record OS := mkOS {
  uuid4 : nat → string;
  abspath : string → string;
  ffmpeg : list string → gmap string node → ProcResult;
  rm_error : string → option exn }.

Definition set_user_videos (f : gmap Z (list string) → gmap Z (list string))
    (s : State) : State :=
  mkState (f (user_videos s)) (files s) (uuid_count s) (trace s).

Definition set_files (f : gmap string node → gmap string node)
    (s : State) : State :=
  mkState (user_videos s) (f (files s)) (uuid_count s) (trace s).

Definition bump_uuid (s : State) : State :=
  mkState (user_videos s) (files s) (S (uuid_count s)) (trace s).

Definition record_events (evs : list event) (s : State) : State :=
  mkState (user_videos s) (files s) (uuid_count s) (trace s ++ evs).

(** *** State and exceptions *)

Definition M (A : Type) : Type := State → (exn + A) * State.

Definition ret {A} (a : A) : M A := λ s, (inr a, s).

Definition raise {A} (e : exn) : M A := λ s, (inl e, s).

Definition bind {A B} (m : M A) (k : A → M B) : M B :=
  λ s, match m s with
       | (inr a, s1) => k a s1
       | (inl e, s1) => (inl e, s1)
       end.

(** [try: m  except Exception as e: h e] *)
Definition try_except {A} (m : M A) (h : exn → M A) : M A :=
  λ s, match m s with
       | (inr a, s1) => (inr a, s1)
       | (inl e, s1) => h e s1
       end.

(** [try: m  finally: fin]; an exception of [fin] replaces the outcome of [m]. *)
Definition try_finally {A} (m : M A) (fin : M unit) : M A :=
  λ s, match m s with
       | (r, s1) => match fin s1 with
                    | (inr _, s2) => (r, s2)
                    | (inl e, s2) => (inl e, s2)
                    end
       end.

Definition gets {A} (f : State → A) : M A := λ s, (inr (f s), s).

Definition modify (f : State → State) : M unit := λ s, (inr tt, f s).

Declare Scope monad_scope.
Delimit Scope monad_scope with M.
Notation "'let*' x ':=' m 'in' k" := (bind m (λ x, k))
  (at level 10, x name, m at level 100, k at level 200) : monad_scope.
Notation "m ;> k" := (bind m (λ _, k))
  (at level 100, k at level 200, right associativity) : monad_scope.

Local Open Scope monad_scope.

(** [for x in l: body x] *)
Fixpoint for_each {A} (l : list A) (body : A → M unit) : M unit :=
  match l with
  | [] => ret tt
  | x :: rest => body x ;> for_each rest body
  end.

Definition when_ (b : bool) (m : M unit) : M unit := if b then m else ret tt.

Definition emit (e : event) : M unit := modify (record_events [e]).

Definition log (lvl : level) (text : string) : M unit := emit (EvLog lvl text).
Definition reply_text (text : string) : M unit := emit (EvReply text).
Definition edit_text (text : string) : M unit := emit (EvEdit text).

(** *** Paths *)

Definition nl : string := String (Ascii.ascii_of_nat 10) EmptyString.

Definition slash : Ascii.ascii := Ascii.ascii_of_nat 47.

(** [d / n] of [pathlib], rendered with [str]. *)
Definition path_join (d n : string) : string := d +:+ "/" +:+ n.

(** The text before the last separator, when there is one. *)
Fixpoint split_parent (p : string) : option string :=
  match p with
  | EmptyString => None
  | String c rest =>
      match split_parent rest with
      | Some d => Some (String c d)
      | None => if Ascii.eqb c slash then Some EmptyString else None
      end
  end.

(** [Path(p).parent], for the relative paths the program builds. *)
Definition parent (p : string) : string := default "." (split_parent p).

(** *** The file system *)

Section FileSystem.
Variable os : OS.

(** [os.path.exists(p)], [Path(p).exists()] *)
Definition path_exists (p : string) : M bool :=
  gets (λ s, bool_decide (is_Some (files s !! p))).

(** [d.mkdir(exist_ok=True)]: afterwards [d] is a directory. *)
Definition mkdir (d : string) : M unit := modify (set_files (<[d := Dir]>)).

(** [os.remove(p)], [Path(p).unlink()]: refuses what is not a regular file
    and whatever the operating system refuses. *)
Definition os_remove (p : string) : M unit :=
  let* f := gets (λ s, files s !! p) in
  match f with
  | None =>
      emit (EvRemove p false) ;>
      raise ("[Errno 2] No such file or directory: '" +:+ p +:+ "'")
  | Some Dir =>
      emit (EvRemove p false) ;>
      raise ("[Errno 21] Is a directory: '" +:+ p +:+ "'")
  | Some (File _) =>
      match rm_error os p with
      | Some e => emit (EvRemove p false) ;> raise e
      | None => modify (set_files (delete p)) ;> emit (EvRemove p true)
      end
  end.

(** [with open(p, "w") as f: ... f.write ...] with [content] the text
    written by the time the file is closed. *)
Definition write_file (p content : string) : M unit :=
  modify (set_files (<[p := File content]>)) ;> emit (EvWriteFile p content).

(** [open(p, "rb")] and reading it *)
Definition open_rb (p : string) : M string :=
  let* f := gets (λ s, files s !! p) in
  match f with
  | Some (File bytes) => ret bytes
  | Some Dir => raise ("[Errno 21] Is a directory: '" +:+ p +:+ "'")
  | None => raise ("[Errno 2] No such file or directory: '" +:+ p +:+ "'")
  end.

(** [d.glob("*")]: the entries directly under [d]. *)
Definition glob (d : string) : M (list string) :=
  gets (λ s, filter (λ p, parent p = d) (elements (dom (files s)))).

Definition uuid : M string :=
  let* n := gets uuid_count in
  modify bump_uuid ;> ret (uuid4 os n).

(** [asyncio.create_subprocess_exec] on the argument vector, followed by
    [process.communicate()].  Both invocations name the output file last. *)
Definition create_subprocess_exec (argv : list string) : M ProcResult :=
  let* fs := gets files in
  let r := ffmpeg os argv fs in
  emit (EvSpawn argv) ;>
  match output r with
  | Some c => modify (set_files (<[List.last argv "" := File c]>))
  | None => ret tt
  end ;>
  ret r.

End FileSystem.

End Runtime.

(** ** src/video_processor.py *)

Module VideoProcessor.
Import Runtime.
Local Open Scope monad_scope.

Definition TEMP_DIR : string := "temp".

Definition WATERMARK_TEXT : string := "Insta / Telegram - @supplywalah".
Definition EMAIL_TEXT : string := "Supplywalah@proton.me".
Definition FONT_PATH : string :=
  "/usr/share/fonts/truetype/dejavu/DejaVuSans-Bold.ttf".
Definition FONT_SIZE : Z := 20.
Definition FONT_COLOR : string := "white".
Definition POSITION : string := "bottom-right".

(** [TEMP_DIR / str(user_id)] *)
Definition user_dir_of (user_id : Z) : string :=
  path_join TEMP_DIR (pretty user_id).

(** The dictionary literal of [apply_watermark]. *)
Definition position_map : gmap string string :=
  list_to_map
    [ ("center", "x=(w-text_w)/2:y=(h-text_h)/2");
      ("bottom", "x=(w-text_w)/2:y=h-th-10");
      ("bottom-right", "x=w-tw-10:y=h-th-10");
      ("top-left", "x=10:y=10");
      ("top-right", "x=w-tw-10:y=10") ].

(** [position_map.get(position, "x=w-tw-10:y=h-th-10")] *)
Definition position_coords (position : string) : string :=
  default "x=w-tw-10:y=h-th-10" (position_map !! position).

(** [filter_text] as [apply_watermark] assembles it, for the configured
    [position]. *)
Definition filter_text (position : string) : string :=
  let filter_text :=
    "drawtext=text='" +:+ WATERMARK_TEXT +:+ "':fontfile=" +:+ FONT_PATH +:+ ":"
    +:+ position_coords position +:+ ":fontcolor=" +:+ FONT_COLOR
    +:+ ":fontsize=" +:+ pretty FONT_SIZE +:+ ":"
    +:+ "shadowcolor=black:shadowx=2:shadowy=2" in
  filter_text
  +:+ (", drawtext=text='" +:+ EMAIL_TEXT +:+ "':fontfile=" +:+ FONT_PATH +:+ ":"
       +:+ "x=(w-text_w)/2:y=10:fontcolor=" +:+ FONT_COLOR
       +:+ ":fontsize=" +:+ pretty FONT_SIZE +:+ ":"
       +:+ "shadowcolor=black:shadowx=2:shadowy=2").

Definition watermark_cmd (position input_path output_path : string)
    : list string :=
  [ "ffmpeg"; "-i"; input_path; "-vf"; filter_text position;
    "-codec:a"; "copy"; "-y"; output_path ].

Definition merge_cmd (list_file merged_path : string) : list string :=
  [ "ffmpeg"; "-f"; "concat"; "-safe"; "0"; "-i"; list_file;
    "-c"; "copy"; "-y"; merged_path ].

Section WithOS.
Variable os : OS.

(** What [telegram_file.download_to_drive] does: raise, or hand over the
    bytes of the upload. *)
Definition download_to_drive (telegram_file : exn + string) (p : string)
    : M unit :=
  match telegram_file with
  | inl e => raise e
  | inr bytes =>
      emit (EvDownload p) ;> modify (set_files (<[p := File bytes]>))
  end.

Definition store_video (telegram_file : exn + string) (user_id : Z)
    : M string :=
  let user_dir := user_dir_of user_id in
  mkdir user_dir ;>
  let* u := uuid os in
  let file_path := path_join user_dir (u +:+ ".mp4") in
  download_to_drive telegram_file file_path ;>
  log LvlInfo ("Stored video for user " +:+ pretty user_id +:+ " at "
               +:+ file_path) ;>
  ret file_path.

Definition apply_watermark_at (position input_path output_path : string)
    : M unit :=
  try_except
    (let cmd := watermark_cmd position input_path output_path in
     log LvlInfo ("Applying watermark to " +:+ input_path) ;>
     let* process := create_subprocess_exec os cmd in
     if bool_decide (returncode process ≠ 0%Z) then
       log LvlError ("FFmpeg watermark error: " +:+ stderr process) ;>
       raise "Failed to apply watermark"
     else ret tt)
    (λ e, log LvlError ("Error applying watermark: " +:+ e) ;> raise e).

Definition apply_watermark : string → string → M unit :=
  apply_watermark_at POSITION.

(** The text the [for path in video_paths: f.write(...)] loop leaves in the
    list file. *)
Definition list_file_text (video_paths : list string) : string :=
  foldl (λ written path,
           written +:+ ("file '" +:+ abspath os path +:+ "'" +:+ nl))
        EmptyString video_paths.

(** The [try] block of [merge_videos] with its [except] clause. *)
Definition merge_attempt (video_paths : list string) (user_id : Z)
    (list_file merged_path watermarked_path : string) : M string :=
  try_except
    (write_file list_file (list_file_text video_paths) ;>
     log LvlInfo ("Merging " +:+ pretty (length video_paths)
                  +:+ " videos for user " +:+ pretty user_id) ;>
     let* merge_process :=
       create_subprocess_exec os (merge_cmd list_file merged_path) in
     (if bool_decide (returncode merge_process ≠ 0%Z) then
        log LvlError ("FFmpeg merge error: " +:+ stderr merge_process) ;>
        raise "Failed to merge videos"
      else ret tt) ;>
     apply_watermark merged_path watermarked_path ;>
     ret watermarked_path)
    (λ e, log LvlError ("Error in merge_videos: " +:+ e) ;> raise e).

(** The [finally] clause of [merge_videos]. *)
Definition remove_list_file (list_file : string) : M unit :=
  let* there := path_exists list_file in
  when_ there (os_remove os list_file).

Definition merge_videos (video_paths : list string) (user_id : Z)
    : M string :=
  let user_dir := user_dir_of user_id in
  mkdir user_dir ;>
  let* u1 := uuid os in
  let list_file := path_join user_dir ("list_" +:+ u1 +:+ ".txt") in
  let* u2 := uuid os in
  let merged_path := path_join user_dir ("merged_" +:+ u2 +:+ ".mp4") in
  let* u3 := uuid os in
  let watermarked_path :=
    path_join user_dir ("watermarked_" +:+ u3 +:+ ".mp4") in
  try_finally
    (merge_attempt video_paths user_id list_file merged_path
                   watermarked_path)
    (remove_list_file list_file).

(** Python's truth value of [result_path and ...]: neither [None] nor the
    empty string. *)
Definition truthy (result_path : option string) : option string :=
  match result_path with
  | Some EmptyString => None
  | r => r
  end.

(** The three steps of the [try] block of [clean_user_videos]. *)
Definition remove_videos (video_paths : list string) : M unit :=
  for_each video_paths (λ path,
    let* there := path_exists path in
    when_ there
      (os_remove os path ;>
       log LvlInfo ("Removed video file: " +:+ path))).

Definition remove_result (result_path : option string) : M unit :=
  match truthy result_path with
  | Some result_path =>
      let* there := path_exists result_path in
      when_ there
        (os_remove os result_path ;>
         log LvlInfo ("Removed result file: " +:+ result_path))
  | None => ret tt
  end.

Definition sweep_user_dir (user_id : Z) : M unit :=
  let user_dir := user_dir_of user_id in
  let* there := path_exists user_dir in
  when_ there
    (let* entries := glob user_dir in
     for_each entries (λ file,
       try_except
         (os_remove os file ;>
          log LvlInfo ("Removed temporary file: " +:+ file))
         (λ _, ret tt))).

Definition clean_user_videos (user_id : Z) (video_paths : list string)
    (result_path : option string) : M unit :=
  try_except
    (remove_videos video_paths ;>
     remove_result result_path ;>
     sweep_user_dir user_id)
    (λ e, log LvlError ("Error cleaning up user videos: " +:+ e)).

End WithOS.

End VideoProcessor.

(** ** src/bot.py *)

Module Bot.
Import Runtime VideoProcessor.
Local Open Scope monad_scope.

(** What a handler reads from [update.message.video]: the declared size in
    bytes, and what [get_file()] followed by [download_to_drive] will do. *)
Record Video := mkVideo {
  file_size : Z;
  get_file : exn + (exn + string) }.

Definition MSG_TOO_LARGE : string :=
  "⚠️ This video is too large (over 50MB). Please send smaller videos.".
Definition MSG_DOWNLOADING : string := "📥 Downloading your video...".
Definition MSG_SAVED (count : nat) : string :=
  "✅ Video " +:+ pretty count +:+ " saved successfully!" +:+ nl +:+ nl
  +:+ "You have uploaded " +:+ pretty count +:+ " video(s). "
  +:+ "Send more or type /merge to combine them.".
Definition MSG_VIDEO_ERROR : string :=
  "❌ There was an error processing your video. Please try again.".
Definition MSG_NEED_TWO : string :=
  "⚠️ Please send at least 2 videos before merging.".
Definition MSG_MERGING : string :=
  "🔄 Merging your videos and adding watermark..." +:+ nl
  +:+ "This may take a while depending on the size of your videos.".
Definition MSG_MERGE_COMPLETE : string :=
  "✅ Merge complete! Sending your video...".
Definition CAPTION : string := "🎬 Here's your merged video with watermark!".
Definition MSG_MERGE_SENT : string :=
  "✅ Your videos have been merged and sent!".
Definition MSG_MERGE_ERROR : string :=
  "❌ There was an error merging your videos. Please try again or /reset and start over.".
Definition MSG_CLEARED : string := "🧹 Your video list has been cleared.".
Definition MSG_NOTHING_TO_CLEAR : string :=
  "ℹ️ You don't have any videos to clear.".

(** [file_size / (1024 * 1024) > 50]: dividing by a power of two is exact, so
    the test is the comparison of the byte count with 50 MiB. *)
Definition over_limit (file_size : Z) : bool :=
  bool_decide (50 * (1024 * 1024) < file_size)%Z.

(** [user_videos[user_id]] read after the handler has checked the key. *)
Definition pending (user_id : Z) (s : State) : list string :=
  default [] (user_videos s !! user_id).

Section WithOS.
Variable os : OS.

Definition handle_video (user_id : Z) (video : Video) : M unit :=
  try_except
    (if over_limit (file_size video) then
       reply_text MSG_TOO_LARGE
     else
       reply_text MSG_DOWNLOADING ;>
       let* video_file :=
         match get_file video with
         | inl e => raise e
         | inr f => ret f
         end in
       let* file_path := store_video os video_file user_id in
       modify (set_user_videos (λ uv,
         if bool_decide (is_Some (uv !! user_id)) then uv
         else <[user_id := []]> uv)) ;>
       modify (set_user_videos (alter (λ l, l ++ [file_path]) user_id)) ;>
       let* count := gets (λ s, length (pending user_id s)) in
       edit_text (MSG_SAVED count))
    (λ e,
       log LvlError ("Error handling video: " +:+ e) ;>
       reply_text MSG_VIDEO_ERROR).

(** [user_id not in user_videos or len(user_videos[user_id]) < 2] *)
Definition too_few (user_id : Z) (s : State) : bool :=
  match user_videos s !! user_id with
  | None => true
  | Some l => bool_decide (length l < 2)
  end.

Definition merge_command (user_id : Z) : M unit :=
  let* few := gets (too_few user_id) in
  if few then reply_text MSG_NEED_TWO
  else
    try_except
      (reply_text MSG_MERGING ;>
       let* video_paths := gets (pending user_id) in
       let* result_path := merge_videos os video_paths user_id in
       edit_text MSG_MERGE_COMPLETE ;>
       let* video_file := open_rb result_path in
       emit (EvReplyVideo result_path video_file CAPTION) ;>
       let* video_paths := gets (pending user_id) in
       clean_user_videos os user_id video_paths (Some result_path) ;>
       modify (set_user_videos (<[user_id := []]>)) ;>
       edit_text MSG_MERGE_SENT)
      (λ e,
         log LvlError ("Error merging videos: " +:+ e) ;>
         reply_text MSG_MERGE_ERROR).

(** [user_id in user_videos and user_videos[user_id]] *)
Definition has_videos (user_id : Z) (s : State) : bool :=
  match user_videos s !! user_id with
  | Some (_ :: _) => true
  | _ => false
  end.

Definition reset_command (user_id : Z) : M unit :=
  let* some := gets (has_videos user_id) in
  if some then
    let* video_paths := gets (pending user_id) in
    clean_user_videos os user_id video_paths None ;>
    modify (set_user_videos (<[user_id := []]>)) ;>
    reply_text MSG_CLEARED
  else reply_text MSG_NOTHING_TO_CLEAR.

End WithOS.

End Bot.

(** ** Vocabulary of the properties *)

Module Props.
Import Runtime VideoProcessor Bot.

(** What reaches the user's chat. *)
Definition user_visible (e : event) : bool :=
  match e with
  | EvReply _ | EvEdit _ | EvReplyVideo _ _ _ => true
  | _ => false
  end.

Definition shown (t : list event) : list event := List.filter user_visible t.

(** The argument vectors of the subprocesses started. *)
Definition spawned (t : list event) : list (list string) :=
  omap (λ e, match e with EvSpawn argv => Some argv | _ => None end) t.

(** The paths whose removal was attempted, successfully or not. *)
Definition attempted (t : list event) : list string :=
  omap (λ e, match e with EvRemove p _ => Some p | _ => None end) t.

(** Outcomes of a computation. *)
Definition never_raises {A} (m : M A) : Prop :=
  ∀ s, ∃ a s', m s = (inr a, s').

Definition preserves {A} (R : relation State) (m : M A) : Prop :=
  ∀ s r s', m s = (r, s') → R s s'.

Definition returns {A} (m : M A) (P : A → Prop) : Prop :=
  ∀ s a s', m s = (inr a, s') → P a.

(** The session table is untouched, the trace only grows, and nothing is
    said to the user. *)
Definition quiet : relation State :=
  λ s s', user_videos s' = user_videos s
          ∧ ∃ t, trace s' = trace s ++ t ∧ shown t = [].

(** The directory [d] stays. *)
Definition keeps_dir (d : string) : relation State :=
  λ s s', files s !! d = Some Dir → files s' !! d = Some Dir.

(** A regular file at [p] stays a regular file. *)
Definition keeps_file (p : string) : relation State :=
  λ s s', (∃ b, files s !! p = Some (File b))
          → ∃ b, files s' !! p = Some (File b).

(** Nothing is created on disk. *)
Definition shrinks : relation State :=
  λ s s', files s' ⊆ files s.

(** The operating system lets [p] go, and [p] is not a directory. *)
Definition removable (os : OS) (s : State) (p : string) : Prop :=
  rm_error os p = None ∧ files s !! p ≠ Some Dir.

(** The path [store_video] makes up from the [n]-th identifier. *)
Definition stored_path (os : OS) (user_id : Z) (n : nat) : string :=
  path_join (user_dir_of user_id) (uuid4 os n +:+ ".mp4").

(** The three paths [merge_videos] makes up when called in state [s], and
    the state in which its [try] block starts. *)
Definition list_file_of (os : OS) (user_id : Z) (s : State) : string :=
  path_join (user_dir_of user_id)
            ("list_" +:+ uuid4 os (uuid_count s) +:+ ".txt").

Definition merged_path_of (os : OS) (user_id : Z) (s : State) : string :=
  path_join (user_dir_of user_id)
            ("merged_" +:+ uuid4 os (S (uuid_count s)) +:+ ".mp4").

Definition watermarked_path_of (os : OS) (user_id : Z) (s : State) : string :=
  path_join (user_dir_of user_id)
            ("watermarked_" +:+ uuid4 os (S (S (uuid_count s))) +:+ ".mp4").

Definition prepared (user_id : Z) (s : State) : State :=
  bump_uuid (bump_uuid (bump_uuid
    (set_files (<[user_dir_of user_id := Dir]>) s))).

(** The disk on which the concatenation runs, and what it does there. *)
Definition concat_disk (os : OS) (video_paths : list string) (user_id : Z)
    (s : State) : gmap string node :=
  <[list_file_of os user_id s := File (list_file_text os video_paths)]>
    (<[user_dir_of user_id := Dir]> (files s)).

Definition concat_run (os : OS) (video_paths : list string) (user_id : Z)
    (s : State) : ProcResult :=
  ffmpeg os (merge_cmd (list_file_of os user_id s) (merged_path_of os user_id s))
         (concat_disk os video_paths user_id s).

(** The state in which the concatenation has just ended: manifest written,
    start logged, subprocess run and its output, if any, on disk. *)
Definition after_concat (os : OS) (video_paths : list string) (user_id : Z)
    (s : State) : State :=
  let list_file := list_file_of os user_id s in
  let merged_path := merged_path_of os user_id s in
  let started :=
    record_events [EvSpawn (merge_cmd list_file merged_path)]
      (record_events
         [EvLog LvlInfo ("Merging " +:+ pretty (length video_paths)
                         +:+ " videos for user " +:+ pretty user_id)]
         (record_events [EvWriteFile list_file (list_file_text os video_paths)]
            (set_files (<[list_file := File (list_file_text os video_paths)]>)
               (prepared user_id s)))) in
  match output (concat_run os video_paths user_id s) with
  | Some c => set_files (<[merged_path := File c]>) started
  | None => started
  end.

(** What is left of the [try] block of [merge_videos] once the concatenation
    has run. *)
Definition finish_attempt (os : OS) (video_paths : list string) (user_id : Z)
    (s : State) : M string :=
  let merge_process := concat_run os video_paths user_id s in
  try_except
    (bind
       (if bool_decide (returncode merge_process ≠ 0%Z) then
          bind (log LvlError ("FFmpeg merge error: " +:+ stderr merge_process))
               (λ _, raise "Failed to merge videos")
        else ret tt)
       (λ _, bind (apply_watermark os (merged_path_of os user_id s)
                                   (watermarked_path_of os user_id s))
                  (λ _, ret (watermarked_path_of os user_id s))))
    (λ e, bind (log LvlError ("Error in merge_videos: " +:+ e))
               (λ _, raise e)).

(** The disk on which the watermark stage runs, and what it does there. *)
Definition watermark_run (os : OS) (video_paths : list string) (user_id : Z)
    (s : State) : ProcResult :=
  ffmpeg os (watermark_cmd POSITION (merged_path_of os user_id s)
                           (watermarked_path_of os user_id s))
         (files (after_concat os video_paths user_id s)).

(** The manifest as the specification words it: one line per input, in input
    order, each of the form [file '<absolute-path>']. *)
Definition manifest_lines (os : OS) (video_paths : list string) : list string :=
  map (λ p, "file '" +:+ abspath os p +:+ "'") video_paths.

Definition unlines (ls : list string) : string :=
  foldr (λ l rest, l +:+ nl +:+ rest) EmptyString ls.

(** One text-draw operation as the specification words it: a text at given
    coordinates in the fixed font, color and size, with the fixed shadow. *)
Definition drawtext (text coords : string) : string :=
  "drawtext=text='" +:+ text +:+ "':fontfile=" +:+ FONT_PATH +:+ ":" +:+ coords
  +:+ ":fontcolor=white:fontsize=20:shadowcolor=black:shadowx=2:shadowy=2".

Definition TOP_CENTER : string := "x=(w-text_w)/2:y=10".
Definition BOTTOM_RIGHT : string := "x=w-tw-10:y=h-th-10".

(** The anchors of the lookup table. *)
Definition anchors : list (string * string) :=
  [ ("center", "x=(w-text_w)/2:y=(h-text_h)/2");
    ("bottom", "x=(w-text_w)/2:y=h-th-10");
    ("bottom-right", BOTTOM_RIGHT);
    ("top-left", "x=10:y=10");
    ("top-right", "x=w-tw-10:y=10") ].

(** How often [needle] starts inside [hay]. *)
Fixpoint occurrences (needle hay : string) : nat :=
  match hay with
  | EmptyString => 0
  | String _ rest =>
      (if String.prefix needle hay then 1 else 0) + occurrences needle rest
  end.

End Props.

(** ** Concrete runs *)

Module Scenario.
Import Runtime VideoProcessor Bot.

Definition uid : Z := 7.
Definition video_a : string := "temp/7/a.mp4".
Definition video_b : string := "temp/7/b.mp4".

(** Nobody has uploaded anything. *)
Definition fresh : State := mkState ∅ ∅ 0 [].

(** User 7 has uploaded two videos. *)
Definition session : State :=
  mkState {[ uid := [video_a; video_b] ]}
          (<["temp/7" := Dir]>
             (<[video_a := File "A"]> (<[video_b := File "B"]> ∅)))
          2 [].

Definition names (n : nat) : string := "id" +:+ pretty n.
Definition absolute (p : string) : string := "/srv/bot/" +:+ p.

(** Everything works. *)
Definition os_fine : OS :=
  mkOS names absolute (λ _ _, mkProc 0 "" (Some "video")) (λ _, None).

(** The media tool gives up, leaving a truncated output behind. *)
Definition os_tool_fails : OS :=
  mkOS names absolute
       (λ _ _, mkProc 1 "Invalid data found when processing input"
                      (Some "partial"))
       (λ _, None).

(** The operating system refuses to remove the first video. *)
Definition os_locked : OS :=
  mkOS names absolute (λ _ _, mkProc 0 "" (Some "video"))
       (λ p, if String.eqb p video_a
             then Some "[Errno 13] Permission denied: 'temp/7/a.mp4'"
             else None).

(** The operating system refuses to remove the second, and last, video. *)
Definition os_locked_last : OS :=
  mkOS names absolute (λ _ _, mkProc 0 "" (Some "video"))
       (λ p, if String.eqb p video_b
             then Some "[Errno 13] Permission denied: 'temp/7/b.mp4'"
             else None).

(** The operating system refuses to remove the merged intermediate file of
    the first merge in [session]. *)
Definition os_leftover_locked : OS :=
  mkOS names absolute (λ _ _, mkProc 0 "" (Some "video"))
       (λ p, if String.eqb p "temp/7/merged_id3.mp4"
             then Some "[Errno 13] Permission denied: 'temp/7/merged_id3.mp4'"
             else None).

Definition small_video : Video := mkVideo 1000 (inr (inr "bytes")).

End Scenario.

(** ** src/bot.py: the remaining handlers, and runs of handlers *)

Module Calls.
Import Runtime VideoProcessor Bot.
Local Open Scope monad_scope.

Definition MSG_START : string :=
  "Welcome to the Video Merger Bot! 🎬" +:+ nl +:+ nl
  +:+ "Send me 2 or more videos, and I'll merge them together and add a watermark."
  +:+ nl +:+ nl
  +:+ "Commands:" +:+ nl
  +:+ "/start - Show this help message" +:+ nl
  +:+ "/merge - Merge your uploaded videos" +:+ nl
  +:+ "/reset - Clear your video list".

Definition MSG_HELP : string :=
  "Video Merger Bot Help 🎬" +:+ nl +:+ nl
  +:+ "1. Send me videos one by one" +:+ nl
  +:+ "2. Use /merge to combine them" +:+ nl
  +:+ "3. Use /reset to clear your uploads" +:+ nl +:+ nl
  +:+ "The videos will be merged in the order you sent them.".

Definition MSG_USAGE : string :=
  "Please send me videos or use one of the available commands:" +:+ nl
  +:+ "/start - Show help" +:+ nl
  +:+ "/merge - Merge uploaded videos" +:+ nl
  +:+ "/reset - Clear your video list".

Definition start_command : M unit := reply_text MSG_START.

Definition help_command : M unit := reply_text MSG_HELP.

(** The callback [create_bot] registers for text that is no command. *)
Definition usage_reply : M unit := reply_text MSG_USAGE.

(** One run of a handler, named by the handler and by what it reads from
    its update. *)
Inductive call :=
| CStart
| CHelp
| CUsage
| CVideo (user_id : Z) (video : Video)
| CMerge (user_id : Z)
| CReset (user_id : Z).

Section WithOS.
Variable os : OS.

Definition run_call (c : call) : M unit :=
  match c with
  | CStart => start_command
  | CHelp => help_command
  | CUsage => usage_reply
  | CVideo user_id video => handle_video os user_id video
  | CMerge user_id => merge_command os user_id
  | CReset user_id => reset_command os user_id
  end.

(** The state once the handlers have run, one after the other. *)
Definition after_calls (calls : list call) (s : State) : State :=
  fold_left (λ s c, (run_call c s).2) calls s.

End WithOS.

End Calls.

(** ** More vocabulary *)

Module MoreProps.
Import Runtime VideoProcessor Bot Props Calls.

(** The trace only grows. *)
Definition extends : relation State :=
  λ s s', ∃ t, trace s' = trace s ++ t.

(** The pending lists of the users other than [u] are as before. *)
Definition others_same (u : Z) : relation State :=
  λ s s', ∀ u', u' ≠ u → user_videos s' !! u' = user_videos s !! u'.

(** Whatever is, or is not, at [q] on disk is as before. *)
Definition keeps_at (q : string) : relation State :=
  λ s s', files s' !! q = files s !! q.

(** No identifier has been handed out. *)
Definition same_uuids : relation State :=
  λ s s', uuid_count s' = uuid_count s.

Fixpoint has_slash (s : string) : bool :=
  match s with
  | EmptyString => false
  | String c rest => Ascii.eqb c slash || has_slash rest
  end.

(** The identifiers are plain names. *)
Definition plain_ids (os : OS) : Prop := ∀ n, has_slash (uuid4 os n) = false.

(** Every pending path of every user is a path [store_video] made up for
    that user, and a regular file is there. *)
Definition stored_sessions (os : OS) (s : State) : Prop :=
  ∀ u p, p ∈ pending u s →
         (∃ n, p = stored_path os u n) ∧ ∃ b, files s !! p = Some (File b).

(** An upload the handler accepts: within the size limit, download going
    through. *)
Definition accepted (v : Video) : Prop :=
  (file_size v ≤ 50 * (1024 * 1024))%Z ∧ ∃ bytes, get_file v = inr (inr bytes).

(** The state in which the watermark stage has just ended. *)
Definition after_watermark (os : OS) (video_paths : list string) (user_id : Z)
    (s : State) : State :=
  let merged_path := merged_path_of os user_id s in
  let watermarked_path := watermarked_path_of os user_id s in
  let started :=
    record_events
      [EvSpawn (watermark_cmd POSITION merged_path watermarked_path)]
      (record_events [EvLog LvlInfo ("Applying watermark to " +:+ merged_path)]
         (after_concat os video_paths user_id s)) in
  match output (watermark_run os video_paths user_id s) with
  | Some c => set_files (<[watermarked_path := File c]>) started
  | None => started
  end.

End MoreProps.

(** ** More concrete runs *)

Module MoreScenario.
Import Runtime VideoProcessor Bot Scenario.

(** The media tool reports success without writing anything. *)
Definition os_silent : OS :=
  mkOS names absolute (λ _ _, mkProc 0 "" None) (λ _, None).

(** The concatenation works, the watermark stage gives up. *)
Definition os_watermark_fails : OS :=
  mkOS names absolute
       (λ argv _, if bool_decide ("-vf" ∈ argv)
                  then mkProc 1 "Cannot find a valid font" None
                  else mkProc 0 "" (Some "merged"))
       (λ _, None).

(** The chat library cannot fetch the file. *)
Definition lost_video : Video := mkVideo 1000 (inl "Timed out").

(** The transfer breaks off. *)
Definition broken_video : Video := mkVideo 1000 (inr (inl "Connection reset")).

Definition other_uid : Z := 8.
Definition video_c : string := "temp/8/c.mp4".

(** Users 7 and 8 both have uploads. *)
Definition two_users : State :=
  mkState (<[other_uid := [video_c]]> {[ uid := [video_a; video_b] ]})
          (<["temp/8" := Dir]>
             (<[video_c := File "C"]>
                (<["temp/7" := Dir]>
                   (<[video_a := File "A"]> (<[video_b := File "B"]> ∅)))))
          3 [].

End MoreScenario.

(** ** Reasoning about computations *)

Module MonadFacts.
Import Runtime Props.
Local Open Scope monad_scope.

Section Preserves.
Context (R : relation State) `{!PreOrder R}.

Lemma preserves_ret {A} (a : A) : preserves R (ret a).
Proof. intros s r s' [= <- <-]. reflexivity. Qed.

Lemma preserves_raise {A} e : preserves R (@raise A e).
Proof. intros s r s' [= <- <-]. reflexivity. Qed.

Lemma preserves_gets {A} (f : State → A) : preserves R (gets f).
Proof. intros s r s' [= <- <-]. reflexivity. Qed.

Lemma preserves_modify f : (∀ s, R s (f s)) → preserves R (modify f).
Proof. intros Hf s r s' [= <- <-]. apply Hf. Qed.

Lemma preserves_bind {A B} (m : M A) (k : A → M B) :
  preserves R m → (∀ a, preserves R (k a)) → preserves R (bind m k).
Proof.
  intros Hm Hk s r s'. unfold bind.
  destruct (m s) as [[e|a] s1] eqn:E; intros H.
  - injection H as <- <-. eapply Hm, E.
  - transitivity s1; [eapply Hm, E | eapply Hk, H].
Qed.

Lemma preserves_try_except {A} (m : M A) h :
  preserves R m → (∀ e, preserves R (h e)) → preserves R (try_except m h).
Proof.
  intros Hm Hh s r s'. unfold try_except.
  destruct (m s) as [[e|a] s1] eqn:E; intros H.
  - transitivity s1; [eapply Hm, E | eapply Hh, H].
  - injection H as <- <-. eapply Hm, E.
Qed.

Lemma preserves_try_finally {A} (m : M A) fin :
  preserves R m → preserves R fin → preserves R (try_finally m fin).
Proof.
  intros Hm Hf s r s'. unfold try_finally.
  destruct (m s) as [r1 s1] eqn:E.
  destruct (fin s1) as [[e|[]] s2] eqn:F; intros [= <- <-];
    (transitivity s1; [eapply Hm, E | eapply Hf, F]).
Qed.

Lemma preserves_when b m : preserves R m → preserves R (when_ b m).
Proof. destruct b; [done | intros _; apply preserves_ret]. Qed.

Lemma preserves_for_each {A} (l : list A) body :
  (∀ x, preserves R (body x)) → preserves R (for_each l body).
Proof.
  intros Hb. induction l as [|x l IH]; simpl.
  - apply preserves_ret.
  - apply preserves_bind; auto.
Qed.

End Preserves.

(** Computations that cannot raise. *)

Lemma never_raises_ret {A} (a : A) : never_raises (ret a).
Proof. intros s. by eexists _, _. Qed.

Lemma never_raises_gets {A} (f : State → A) : never_raises (gets f).
Proof. intros s. by eexists _, _. Qed.

Lemma never_raises_modify f : never_raises (modify f).
Proof. intros s. by eexists _, _. Qed.

Lemma never_raises_bind {A B} (m : M A) (k : A → M B) :
  never_raises m → (∀ a, never_raises (k a)) → never_raises (bind m k).
Proof.
  intros Hm Hk s. unfold bind.
  destruct (Hm s) as (a & s1 & ->). apply Hk.
Qed.

Lemma never_raises_try_except {A} (m : M A) h :
  (∀ e, never_raises (h e)) → never_raises (try_except m h).
Proof.
  intros Hh s. unfold try_except.
  destruct (m s) as [[e|a] s1]; [apply Hh | by eexists _, _].
Qed.

Lemma never_raises_when b m : never_raises m → never_raises (when_ b m).
Proof. destruct b; [done | intros _; apply never_raises_ret]. Qed.

Lemma never_raises_for_each {A} (l : list A) body :
  (∀ x, never_raises (body x)) → never_raises (for_each l body).
Proof.
  intros Hb. induction l as [|x l IH]; simpl.
  - apply never_raises_ret.
  - apply never_raises_bind; auto.
Qed.

End MonadFacts.

(** ** Paths, relations between states *)

Module WorldFacts.
Import Runtime VideoProcessor Props MonadFacts.
Local Open Scope monad_scope.

(** *** Paths *)

Lemma length_append (a b : string) :
  String.length (a +:+ b) = String.length a + String.length b.
Proof. induction a as [|c a IH]; simpl; [done | by rewrite IH]. Qed.

Lemma append_nil_r (a : string) : a +:+ EmptyString = a.
Proof.
  induction a as [|c a IH]; [done|].
  change (String c (a +:+ EmptyString) = String c a). by rewrite IH.
Qed.

Lemma append_assoc (a b c : string) : (a +:+ b) +:+ c = a +:+ (b +:+ c).
Proof.
  induction a as [|x a IH]; [done|].
  change (String x ((a +:+ b) +:+ c) = String x (a +:+ (b +:+ c))).
  by rewrite IH.
Qed.

Lemma path_join_neq d n : path_join d n ≠ d.
Proof.
  intros H. apply (f_equal String.length) in H.
  unfold path_join in H. rewrite !length_append in H. simpl in H. lia.
Qed.

Lemma path_join_inj d n1 n2 : path_join d n1 = path_join d n2 → n1 = n2.
Proof.
  unfold path_join. intros H. apply (inj (String.append d)) in H.
  by injection H.
Qed.

(** *** The relations are preorders *)

#[export] Instance quiet_preorder : PreOrder quiet.
Proof.
  split.
  - intros s. split; [done | exists []; by rewrite app_nil_r].
  - intros s1 s2 s3 [U1 (t1 & T1 & S1)] [U2 (t2 & T2 & S2)]. split.
    + congruence.
    + exists (t1 ++ t2). split.
      * by rewrite T2, T1, app_assoc.
      * unfold shown in *. by rewrite List.filter_app, S1, S2.
Qed.

#[export] Instance keeps_dir_preorder d : PreOrder (keeps_dir d).
Proof.
  split; unfold keeps_dir; [intros s; tauto | intros s1 s2 s3; tauto].
Qed.

#[export] Instance keeps_file_preorder p : PreOrder (keeps_file p).
Proof.
  split; unfold keeps_file; [intros s; tauto | intros s1 s2 s3; tauto].
Qed.

#[export] Instance shrinks_preorder : PreOrder shrinks.
Proof.
  split; unfold shrinks.
  - by intros s.
  - intros s1 s2 s3 H1 H2. by transitivity (files s2).
Qed.

(** *** Steps that leave a relation alone *)

Lemma quiet_set_files f s : quiet s (set_files f s).
Proof. split; [done | exists []; by rewrite app_nil_r]. Qed.

Lemma quiet_bump_uuid s : quiet s (bump_uuid s).
Proof. split; [done | exists []; by rewrite app_nil_r]. Qed.

Lemma quiet_record e s : user_visible e = false → quiet s (record_events [e] s).
Proof. intros H. split; [done | exists [e]; simpl; by rewrite H]. Qed.

Lemma keeps_dir_record d evs s : keeps_dir d s (record_events evs s).
Proof. by intros H. Qed.

Lemma keeps_dir_bump_uuid d s : keeps_dir d s (bump_uuid s).
Proof. by intros H. Qed.

Lemma keeps_dir_insert d p x s :
  p ≠ d → keeps_dir d s (set_files (<[p := x]>) s).
Proof. intros Hp H. simpl. by rewrite lookup_insert_ne. Qed.

Lemma keeps_dir_mkdir d d' s : keeps_dir d s (set_files (<[d' := Dir]>) s).
Proof.
  intros H. simpl. destruct (decide (d' = d)) as [->|Hne].
  - apply lookup_insert_eq.
  - by rewrite lookup_insert_ne.
Qed.

Lemma keeps_dir_delete d p s :
  p ≠ d → keeps_dir d s (set_files (delete p) s).
Proof. intros Hp H. simpl. by rewrite lookup_delete_ne. Qed.

Lemma keeps_file_record p evs s : keeps_file p s (record_events evs s).
Proof. by intros H. Qed.

Lemma keeps_file_bump_uuid p s : keeps_file p s (bump_uuid s).
Proof. by intros H. Qed.

Lemma keeps_file_insert p q c s :
  keeps_file p s (set_files (<[q := File c]>) s).
Proof.
  intros [b H]. simpl. destruct (decide (q = p)) as [->|Hne].
  - exists c. apply lookup_insert_eq.
  - exists b. by rewrite lookup_insert_ne.
Qed.

Lemma shrinks_record evs s : shrinks s (record_events evs s).
Proof. by unfold shrinks. Qed.

Lemma shrinks_delete p s : shrinks s (set_files (delete p) s).
Proof. unfold shrinks. simpl. apply delete_subseteq. Qed.

Lemma shrinks_not_dir s s' p :
  shrinks s s' → files s !! p ≠ Some Dir → files s' !! p ≠ Some Dir.
Proof.
  unfold shrinks. intros Hsub Hp Hd. apply Hp.
  eapply lookup_weaken; eauto.
Qed.

Lemma shrinks_none s s' p :
  shrinks s s' → files s !! p = None → files s' !! p = None.
Proof. unfold shrinks. intros Hsub Hp. eapply lookup_weaken_None; eauto. Qed.

End WorldFacts.

(** ** What the pipeline and the cleanup leave alone *)

Module FrameFacts.
Import Runtime VideoProcessor Props MonadFacts WorldFacts.
Local Open Scope monad_scope.

(** Walks down the structure of a computation, leaving one goal per state
    update. *)
Ltac frame_step :=
  lazymatch goal with
  | |- preserves _ (bind _ _) =>
      apply preserves_bind; [apply _ | | intros ?]
  | |- preserves _ (try_except _ _) =>
      apply preserves_try_except; [apply _ | | intros ?]
  | |- preserves _ (try_finally _ _) =>
      apply preserves_try_finally; [apply _ | | ]
  | |- preserves _ (ret _) => apply preserves_ret; apply _
  | |- preserves _ (raise _) => apply preserves_raise; apply _
  | |- preserves _ (gets _) => apply preserves_gets; apply _
  | |- preserves _ (when_ _ _) => apply preserves_when; [apply _ | ]
  | |- preserves _ (for_each _ _) =>
      apply preserves_for_each; [apply _ | intros ?]
  | |- preserves _ (modify _) => apply preserves_modify; intros ?
  | |- preserves _ (match ?x with _ => _ end) => destruct x
  end.

Ltac frame_with leaf :=
  repeat first
    [ leaf
    | frame_step
    | progress unfold path_exists, mkdir, os_remove, write_file, open_rb, glob,
        uuid, create_subprocess_exec, emit, log ].

Ltac frame := frame_with fail.

Section Quiet.
Variable os : OS.

Ltac quiet_leaf :=
  first [ apply quiet_set_files | apply quiet_bump_uuid
        | by apply quiet_record ].

Lemma apply_watermark_quiet pos i o :
  preserves quiet (apply_watermark_at os pos i o).
Proof. unfold apply_watermark_at. frame; quiet_leaf. Qed.

Lemma merge_videos_quiet ps u : preserves quiet (merge_videos os ps u).
Proof.
  unfold merge_videos, merge_attempt, remove_list_file.
  frame; try quiet_leaf.
  apply apply_watermark_quiet.
Qed.

Lemma clean_user_videos_quiet u ps r :
  preserves quiet (clean_user_videos os u ps r).
Proof.
  unfold clean_user_videos, remove_videos, remove_result, sweep_user_dir.
  frame; quiet_leaf.
Qed.

Lemma clean_user_videos_shrinks u ps r :
  preserves shrinks (clean_user_videos os u ps r).
Proof.
  unfold clean_user_videos, remove_videos, remove_result, sweep_user_dir.
  frame; first [ apply shrinks_record | apply shrinks_delete ].
Qed.

(** The outer [except] clause only logs, so nothing gets past it. *)
Lemma clean_user_videos_never_raises u ps r :
  never_raises (clean_user_videos os u ps r).
Proof.
  apply never_raises_try_except. intros e. apply never_raises_modify.
Qed.

(** Each removal of the sweep has its own [except: pass]. *)
Lemma sweep_user_dir_never_raises u : never_raises (sweep_user_dir os u).
Proof.
  unfold sweep_user_dir.
  apply never_raises_bind; [apply never_raises_gets | intros there].
  apply never_raises_when.
  apply never_raises_bind; [apply never_raises_gets | intros entries].
  apply never_raises_for_each. intros file.
  apply never_raises_try_except. intros _. apply never_raises_ret.
Qed.

(** Removal never takes a directory away. *)
Lemma os_remove_keeps_dir d p : preserves (keeps_dir d) (os_remove os p).
Proof.
  intros s r s'. cbv [os_remove bind gets emit modify raise].
  destruct (files s !! p) as [[b|]|] eqn:E; simpl; rewrite ?E; simpl.
  - destruct (rm_error os p); intros [= <- <-];
      [apply keeps_dir_record|].
    intros H. simpl. rewrite lookup_delete_ne; [done|]. congruence.
  - intros [= <- <-]. apply keeps_dir_record.
  - intros [= <- <-]. apply keeps_dir_record.
Qed.

Ltac keeps_dir_leaf :=
  first [ apply keeps_dir_record | apply keeps_dir_bump_uuid
        | apply keeps_dir_mkdir
        | apply keeps_dir_insert; first [ apply path_join_neq | done ] ].

Lemma apply_watermark_keeps_dir d pos i o :
  o ≠ d → preserves (keeps_dir d) (apply_watermark_at os pos i o).
Proof.
  intros Ho. unfold apply_watermark_at.
  frame_with ltac:(apply os_remove_keeps_dir); keeps_dir_leaf.
Qed.

Lemma merge_videos_dir ps u s r s1 :
  merge_videos os ps u s = (r, s1) →
  files s1 !! user_dir_of u = Some Dir.
Proof.
  unfold merge_videos, merge_attempt, remove_list_file.
  unfold bind at 1. unfold mkdir at 1, modify at 1.
  match goal with
  | |- ?rest ?s0 = _ → _ =>
      assert (preserves (keeps_dir (user_dir_of u)) rest) as Hrest
  end.
  { frame_with ltac:(apply os_remove_keeps_dir); try keeps_dir_leaf.
    apply apply_watermark_keeps_dir, path_join_neq. }
  intros H. apply Hrest in H. apply H. simpl. apply lookup_insert_eq.
Qed.
End Quiet.
End FrameFacts.

(** ** The loops of [clean_user_videos] *)

Module CleanupFacts.
Import Runtime VideoProcessor Props MonadFacts WorldFacts FrameFacts.
Local Open Scope monad_scope.

(** Unfolds the plumbing of the monad. *)
Ltac run :=
  cbv [bind try_except try_finally ret raise gets modify emit log when_
       reply_text edit_text path_exists os_remove write_file open_rb mkdir
       glob uuid create_subprocess_exec].

Section Cleanup.
Variable os : OS.

(** One guarded removal of the explicit list. *)
Lemma remove_one_ok (what p : string) s :
  removable os s p →
  ∃ s', (let* there := path_exists p in
         when_ there (os_remove os p ;> log LvlInfo (what +:+ p))) s
        = (inr tt, s')
        ∧ shrinks s s' ∧ files s' !! p = None.
Proof.
  intros [Hrm Hnd]. run.
  destruct (files s !! p) as [[b|]|] eqn:E; simpl; rewrite ?E, ?Hrm; simpl.
  - eexists. split; [done|]. split.
    + apply shrinks_delete.
    + simpl. apply lookup_delete_eq.
  - done.
  - eexists. split; [done|]. split; [done | exact E].
Qed.

Lemma remove_videos_ok ps s :
  (∀ p, p ∈ ps → removable os s p) →
  ∃ s', remove_videos os ps s = (inr tt, s')
        ∧ shrinks s s' ∧ ∀ p, p ∈ ps → files s' !! p = None.
Proof.
  unfold remove_videos. revert s.
  induction ps as [|p ps IH]; intros s Hps; simpl.
  - exists s. split; [done|]. split; [done | intros p []%elem_of_nil].
  - destruct (remove_one_ok "Removed video file: " p s) as (s1 & E1 & Sh1 & N1).
    { apply Hps. left. }
    unfold bind at 1. rewrite E1.
    destruct (IH s1) as (s' & E' & Sh' & N').
    { intros q Hq. destruct (Hps q) as [Hrm Hnd]; [by right|].
      split; [done | by eapply shrinks_not_dir]. }
    exists s'. split; [done|]. split; [by transitivity s1|].
    intros q [->|Hq]%elem_of_cons; [by eapply shrinks_none | by apply N'].
Qed.

(** A refused removal in the explicit list ends the whole cleanup: the
    exception leaves the loop, skips the result file and the sweep, and is
    logged by the outer [except]. *)
Lemma clean_user_videos_aborts u p ps r s b e :
  files s !! p = Some (File b) →
  rm_error os p = Some e →
  clean_user_videos os u (p :: ps) r s
  = (inr tt,
     record_events [EvLog LvlError ("Error cleaning up user videos: " +:+ e)]
       (record_events [EvRemove p false] s)).
Proof.
  intros Hp Hrm. unfold clean_user_videos, remove_videos. simpl. run.
  simpl. rewrite Hp. simpl. by rewrite Hp, Hrm.
Qed.

(** One removal of the sweep: whatever goes wrong is swallowed. *)
Lemma sweep_one_ok p s :
  ∃ s', try_except
          (os_remove os p ;> log LvlInfo ("Removed temporary file: " +:+ p))
          (λ _, ret tt) s = (inr tt, s')
        ∧ shrinks s s'
        ∧ (rm_error os p = None → ∀ b, files s' !! p ≠ Some (File b)).
Proof.
  run. destruct (files s !! p) as [[b|]|] eqn:E; simpl; rewrite ?E; simpl.
  - destruct (rm_error os p) as [e|] eqn:R; simpl.
    + eexists. split; [done|]. split; [apply shrinks_record|]. by intros.
    + eexists. split; [done|]. split; [apply shrinks_delete|].
      intros _ b'. simpl. by rewrite lookup_delete_eq.
  - eexists. split; [done|]. split; [apply shrinks_record|].
    intros _ b. simpl. by rewrite E.
  - eexists. split; [done|]. split; [apply shrinks_record|].
    intros _ b. simpl. by rewrite E.
Qed.

Lemma sweep_loop_ok entries s :
  ∃ s', for_each entries (λ file,
          try_except
            (os_remove os file ;>
             log LvlInfo ("Removed temporary file: " +:+ file))
            (λ _, ret tt)) s = (inr tt, s')
        ∧ shrinks s s'
        ∧ ∀ p b, p ∈ entries → rm_error os p = None →
                 files s' !! p ≠ Some (File b).
Proof.
  revert s. induction entries as [|p l IH]; intros s; simpl.
  - exists s. split; [done|]. split; [done | by intros p b []%elem_of_nil].
  - destruct (sweep_one_ok p s) as (s1 & E1 & Sh1 & N1).
    unfold bind at 1. rewrite E1.
    destruct (IH s1) as (s' & E' & Sh' & N').
    exists s'. split; [done|]. split; [by transitivity s1|].
    intros q b [->|Hq]%elem_of_cons Hrm; [|by apply N'].
    intros Hf. eapply N1; [done|]. eapply lookup_weaken; eauto.
Qed.

Lemma sweep_user_dir_ok u s :
  ∃ s', sweep_user_dir os u s = (inr tt, s')
        ∧ shrinks s s'
        ∧ (is_Some (files s !! user_dir_of u) →
           ∀ p b, parent p = user_dir_of u → rm_error os p = None →
                  files s' !! p ≠ Some (File b)).
Proof.
  unfold sweep_user_dir. unfold bind at 1, path_exists, gets.
  destruct (bool_decide (is_Some (files s !! user_dir_of u))) eqn:D; simpl.
  - unfold bind, glob, gets.
    destruct (sweep_loop_ok
                (filter (λ p, parent p = user_dir_of u)
                        (elements (dom (files s)))) s)
      as (s' & E' & Sh' & N').
    exists s'. split; [done|]. split; [done|].
    intros _ p b Hp Hrm Hf. eapply N'; [|done|exact Hf].
    apply list_elem_of_filter. split; [done|].
    apply elem_of_elements, elem_of_dom.
    exists (File b). eapply lookup_weaken; eauto.
  - exists s. split; [done|]. split; [done|].
    intros Hd. apply bool_decide_eq_false in D. done.
Qed.

Lemma remove_result_ok r s :
  removable os s r →
  ∃ s', remove_result os (Some r) s = (inr tt, s')
        ∧ shrinks s s' ∧ (r ≠ EmptyString → files s' !! r = None).
Proof.
  intros Hr. unfold remove_result. destruct r as [|c r]; simpl.
  - exists s. by split.
  - destruct (remove_one_ok "Removed result file: " (String c r) s Hr)
      as (s' & E & Sh & N).
    exists s'. by split.
Qed.

End Cleanup.
End CleanupFacts.

(** ** The merge pipeline *)

Module PipelineFacts.
Import Runtime VideoProcessor Props.
Import MonadFacts WorldFacts FrameFacts CleanupFacts.
Local Open Scope monad_scope.

Section Pipeline.
Variable os : OS.

Lemma merge_videos_unfold ps u s :
  merge_videos os ps u s
  = try_finally
      (merge_attempt os ps u (list_file_of os u s) (merged_path_of os u s)
                     (watermarked_path_of os u s))
      (remove_list_file os (list_file_of os u s))
      (prepared u s).
Proof. reflexivity. Qed.

Lemma merged_neq_list_file u s : merged_path_of os u s ≠ list_file_of os u s.
Proof. intros H. apply path_join_inj in H. discriminate. Qed.

Lemma merge_attempt_eval ps u s :
  merge_attempt os ps u (list_file_of os u s) (merged_path_of os u s)
                (watermarked_path_of os u s) (prepared u s)
  = finish_attempt os ps u s (after_concat os ps u s).
Proof.
  unfold merge_attempt, finish_attempt, after_concat. run. simpl.
  fold (concat_disk os ps u s). fold (concat_run os ps u s).
  by destruct (output (concat_run os ps u s)).
Qed.

Lemma finish_attempt_quiet ps u s : preserves quiet (finish_attempt os ps u s).
Proof.
  unfold finish_attempt. frame; try by apply quiet_record.
  apply apply_watermark_quiet.
Qed.

Lemma apply_watermark_keeps_file p pos i o :
  preserves (keeps_file p) (apply_watermark_at os pos i o).
Proof.
  unfold apply_watermark_at.
  frame; first [ apply keeps_file_record | apply keeps_file_insert ].
Qed.

Lemma finish_attempt_keeps_file p ps u s :
  preserves (keeps_file p) (finish_attempt os ps u s).
Proof.
  unfold finish_attempt. frame; try apply keeps_file_record.
  apply apply_watermark_keeps_file.
Qed.

Lemma after_concat_list_file ps u s :
  ∃ b, files (after_concat os ps u s) !! list_file_of os u s = Some (File b).
Proof.
  unfold after_concat.
  destruct (output (concat_run os ps u s)) as [c|]; simpl.
  - rewrite lookup_insert_ne by apply merged_neq_list_file.
    rewrite lookup_insert_eq. by eexists.
  - rewrite lookup_insert_eq. by eexists.
Qed.

Lemma after_concat_trace ps u s :
  trace (after_concat os ps u s)
  = trace s ++
    [ EvWriteFile (list_file_of os u s) (list_file_text os ps);
      EvLog LvlInfo ("Merging " +:+ pretty (length ps)
                     +:+ " videos for user " +:+ pretty u);
      EvSpawn (merge_cmd (list_file_of os u s) (merged_path_of os u s)) ].
Proof.
  unfold after_concat.
  destruct (output (concat_run os ps u s)); simpl;
    by rewrite <- !app_assoc.
Qed.

(** The [finally] clause, when the manifest is there and may be removed. *)
Lemma remove_list_file_ok l s b :
  files s !! l = Some (File b) → rm_error os l = None →
  remove_list_file os l s
  = (inr tt, record_events [EvRemove l true] (set_files (delete l) s)).
Proof.
  intros Hl Hrm. unfold remove_list_file. run. simpl.
  rewrite Hl. simpl. by rewrite ?Hl, ?Hrm.
Qed.

(** The loop that writes the manifest produces the lines of the
    specification. *)
Lemma list_file_text_lines ps :
  list_file_text os ps = unlines (manifest_lines os ps).
Proof.
  unfold list_file_text.
  enough (∀ acc, foldl (λ written path,
                   written +:+ ("file '" +:+ abspath os path +:+ "'" +:+ nl))
                 acc ps
               = acc +:+ unlines (manifest_lines os ps)) as H by apply H.
  induction ps as [|p ps IH]; intros acc; simpl.
  - by rewrite append_nil_r.
  - rewrite IH. by rewrite !append_assoc.
Qed.


Lemma spawned_app t1 t2 : spawned (t1 ++ t2) = spawned t1 ++ spawned t2.
Proof. apply omap_app. Qed.


End Pipeline.
End PipelineFacts.

(** ** Return values, and a cleanup that meets no refusal *)

Module OutcomeFacts.
Import Runtime VideoProcessor Props.
Import MonadFacts WorldFacts FrameFacts CleanupFacts PipelineFacts.
Local Open Scope monad_scope.

Lemma returns_ret {A} (a : A) (P : A → Prop) : P a → returns (ret a) P.
Proof. by intros Ha s a' s' [= <- <-]. Qed.

Lemma returns_raise {A} e (P : A → Prop) : returns (raise e) P.
Proof. by intros s a s'. Qed.

Lemma returns_bind {A B} (m : M A) (k : A → M B) P :
  (∀ a, returns (k a) P) → returns (bind m k) P.
Proof.
  intros Hk s b s'. unfold bind.
  destruct (m s) as [[e|a] s1]; [done | apply Hk].
Qed.

Lemma returns_try_except {A} (m : M A) h P :
  returns m P → (∀ e, returns (h e) P) → returns (try_except m h) P.
Proof.
  intros Hm Hh s a s'. unfold try_except.
  destruct (m s) as [[e|a'] s1] eqn:E; [apply Hh|].
  intros [= <- <-]. eapply Hm, E.
Qed.

Lemma returns_try_finally {A} (m : M A) fin P :
  returns m P → returns (try_finally m fin) P.
Proof.
  intros Hm s a s'. unfold try_finally.
  destruct (m s) as [r s1] eqn:E.
  destruct (fin s1) as [[e|[]] s2]; [done|].
  intros [= -> <-]. eapply Hm, E.
Qed.

Section More.
Variable os : OS.

Lemma merge_videos_returns ps u s r s1 :
  merge_videos os ps u s = (inr r, s1) → r = watermarked_path_of os u s.
Proof.
  rewrite merge_videos_unfold. revert r s1.
  apply (returns_try_finally _ _ (λ r, r = watermarked_path_of os u s)).
  unfold merge_attempt. apply returns_try_except.
  - repeat (apply returns_bind; intros ?). by apply returns_ret.
  - intros e. apply returns_bind. intros _. apply returns_raise.
Qed.

Lemma watermarked_path_nonempty u s : watermarked_path_of os u s ≠ EmptyString.
Proof.
  intros H. apply (f_equal String.length) in H.
  unfold watermarked_path_of, path_join in H.
  rewrite !length_append in H. simpl in H. lia.
Qed.

Lemma remove_videos_keeps_dir d ps :
  preserves (keeps_dir d) (remove_videos os ps).
Proof.
  unfold remove_videos.
  frame_with ltac:(apply os_remove_keeps_dir); apply keeps_dir_record.
Qed.

Lemma remove_result_keeps_dir d r :
  preserves (keeps_dir d) (remove_result os r).
Proof.
  unfold remove_result.
  frame_with ltac:(apply os_remove_keeps_dir); apply keeps_dir_record.
Qed.

(** Cleanup when every removal is permitted and no listed path is a
    directory: the listed paths, the result and every regular file directly
    under the user's directory are gone. *)
Lemma clean_user_videos_ok u ps r s :
  (∀ p, rm_error os p = None) →
  (∀ p, p ∈ ps → files s !! p ≠ Some Dir) →
  files s !! r ≠ Some Dir →
  r ≠ EmptyString →
  files s !! user_dir_of u = Some Dir →
  ∃ s', clean_user_videos os u ps (Some r) s = (inr tt, s')
        ∧ (∀ p, p ∈ ps → files s' !! p = None)
        ∧ files s' !! r = None
        ∧ (∀ p b, parent p = user_dir_of u → files s' !! p ≠ Some (File b)).
Proof.
  intros Hrm Hps Hr Hne Hd. unfold clean_user_videos.
  destruct (remove_videos_ok os ps s) as (s1 & E1 & Sh1 & N1).
  { intros p Hp. split; [apply Hrm | by apply Hps]. }
  destruct (remove_result_ok os r s1) as (s2 & E2 & Sh2 & N2).
  { split; [apply Hrm | by eapply shrinks_not_dir]. }
  destruct (sweep_user_dir_ok os u s2) as (s3 & E3 & Sh3 & N3).
  exists s3. split.
  { unfold try_except, bind. by rewrite E1, E2, E3. }
  split; [|split].
  - intros p Hp. eapply shrinks_none; [|by apply N1].
    by transitivity s2.
  - eapply shrinks_none; [exact Sh3 | by apply N2].
  - intros p b Hp. apply N3; [|done|apply Hrm].
    exists Dir.
    apply (remove_result_keeps_dir _ _ _ _ _ E2).
    by apply (remove_videos_keeps_dir _ _ _ _ _ E1).
Qed.

(** Cleanup when the listed paths and the result may be removed: they are
    gone afterwards, and so is every regular file directly under the user's
    directory that the operating system lets go. *)
Lemma clean_user_videos_permitted u ps r s :
  (∀ p, p ∈ ps → removable os s p) →
  removable os s r →
  r ≠ EmptyString →
  files s !! user_dir_of u = Some Dir →
  ∃ s', clean_user_videos os u ps (Some r) s = (inr tt, s')
        ∧ (∀ p, p ∈ ps → files s' !! p = None)
        ∧ files s' !! r = None
        ∧ (∀ p b, parent p = user_dir_of u → rm_error os p = None →
                  files s' !! p ≠ Some (File b)).
Proof.
  intros Hps [Hrr Hrd] Hne Hd. unfold clean_user_videos.
  destruct (remove_videos_ok os ps s Hps) as (s1 & E1 & Sh1 & N1).
  destruct (remove_result_ok os r s1) as (s2 & E2 & Sh2 & N2).
  { split; [exact Hrr | by eapply shrinks_not_dir]. }
  destruct (sweep_user_dir_ok os u s2) as (s3 & E3 & Sh3 & N3).
  exists s3. split.
  { unfold try_except, bind. by rewrite E1, E2, E3. }
  split; [|split].
  - intros p Hp. eapply shrinks_none; [|by apply N1].
    by transitivity s2.
  - eapply shrinks_none; [exact Sh3 | by apply N2].
  - intros p b Hp Hrm. apply N3; [|done|exact Hrm].
    exists Dir.
    apply (remove_result_keeps_dir _ _ _ _ _ E2).
    by apply (remove_videos_keeps_dir _ _ _ _ _ E1).
Qed.
End More.
End OutcomeFacts.

(** ** The handlers *)

Module HandlerFacts.
Import Runtime VideoProcessor Bot Props.
Import MonadFacts WorldFacts FrameFacts CleanupFacts PipelineFacts OutcomeFacts.
Local Open Scope monad_scope.

Lemma too_few_true u s : length (pending u s) < 2 → too_few u s = true.
Proof.
  unfold pending, too_few. destruct (user_videos s !! u); simpl; [|done].
  intros H. by apply bool_decide_eq_true.
Qed.

Lemma too_few_false u s : 2 ≤ length (pending u s) → too_few u s = false.
Proof.
  unfold pending, too_few. destruct (user_videos s !! u); simpl; [|lia].
  intros H. apply bool_decide_eq_false. lia.
Qed.

Lemma has_videos_true u s : pending u s ≠ [] → has_videos u s = true.
Proof.
  unfold pending, has_videos.
  by destruct (user_videos s !! u) as [[|p l]|].
Qed.

Lemma has_videos_false u s : pending u s = [] → has_videos u s = false.
Proof.
  unfold pending, has_videos.
  by destruct (user_videos s !! u) as [[|p l]|].
Qed.

Lemma shown_app t1 t2 : shown (t1 ++ t2) = shown t1 ++ shown t2.
Proof. apply List.filter_app. Qed.

Section Handlers.
Variable os : OS.

(** C1. A merge request issued while the user has fewer than two pending
    uploads (or no entry at all) answers with the precondition message and
    does nothing else: the session table, the disk and the identifier
    supply are as before, and no subprocess has been started. *)
Theorem C1_merge_needs_two_videos u s :
  length (pending u s) < 2 →
  merge_command os u s = (inr tt, record_events [EvReply MSG_NEED_TWO] s)
  ∧ let s' := (merge_command os u s).2 in
    user_videos s' = user_videos s
    ∧ files s' = files s
    ∧ uuid_count s' = uuid_count s
    ∧ spawned (trace s') = spawned (trace s).
Proof.
  intros H.
  assert (merge_command os u s
          = (inr tt, record_events [EvReply MSG_NEED_TWO] s)) as E.
  { unfold merge_command, bind, gets. by rewrite too_few_true. }
  split; [exact E|]. rewrite E. simpl.
  repeat split. rewrite spawned_app. simpl. by rewrite app_nil_r.
Qed.

(** C2. With at least two pending uploads, when the pipeline raises, for
    whatever reason and with whatever message [e], the handler logs [e],
    tells the user only the two fixed messages (merge started, merge
    failed), and leaves the session table as it was. *)
Theorem C2_failed_merge_keeps_pending u s e s1 :
  2 ≤ length (pending u s) →
  merge_videos os (pending u s) u (record_events [EvReply MSG_MERGING] s)
  = (inl e, s1) →
  let s' :=
    record_events [EvReply MSG_MERGE_ERROR]
      (record_events [EvLog LvlError ("Error merging videos: " +:+ e)] s1) in
  merge_command os u s = (inr tt, s')
  ∧ user_videos s' = user_videos s
  ∧ shown (trace s')
    = shown (trace s) ++ [EvReply MSG_MERGING; EvReply MSG_MERGE_ERROR].
Proof.
  intros Hlen Hrun.
  destruct (merge_videos_quiet _ _ _ _ _ _ Hrun) as [Huv (t & Ht & Hsh)].
  cbv zeta. split; [|split].
  - unfold merge_command. unfold bind at 1, gets at 1.
    rewrite too_few_false by done.
    cbv [try_except bind reply_text emit modify gets log].
    change (pending u (record_events [EvReply MSG_MERGING] s))
      with (pending u s).
    by rewrite Hrun.
  - exact Huv.
  - simpl. rewrite Ht. simpl. rewrite !shown_app, Hsh. simpl.
    by rewrite !app_nil_r, <- app_assoc.
Qed.

(** C3, as the code has it.  When the pipeline returns the final file [r] and the
    file can be read, a merge request delivers [r] to the user and runs the
    cleanup only in the state in which the delivery has happened (in the
    trace, the events of the cleanup follow the delivery); afterwards the
    user's pending list is empty, whatever the cleanup met.  When moreover
    each input path and the final file may be removed, the inputs and the
    final file are gone, and so is every regular file directly under the
    user's directory that the operating system lets go: what remains there
    are only leftovers whose removal was refused. *)
Theorem C3_successful_merge_delivers_then_cleans u s r s1 c :
  2 ≤ length (pending u s) →
  merge_videos os (pending u s) u (record_events [EvReply MSG_MERGING] s)
  = (inr r, s1) →
  files s1 !! r = Some (File c) →
  ∃ sc,
    clean_user_videos os u (pending u s) (Some r)
      (record_events [EvReplyVideo r c CAPTION]
         (record_events [EvEdit MSG_MERGE_COMPLETE] s1))
    = (inr tt, sc)
    ∧ merge_command os u s
      = (inr tt, record_events [EvEdit MSG_MERGE_SENT]
                   (set_user_videos (<[u := []]>) sc))
    ∧ let s' := (merge_command os u s).2 in
      pending u s' = []
      ∧ (∃ tc, trace s'
               = trace s1 ++
                 [EvEdit MSG_MERGE_COMPLETE; EvReplyVideo r c CAPTION]
                 ++ tc ++ [EvEdit MSG_MERGE_SENT])
      ∧ shown (trace s')
        = shown (trace s) ++
          [ EvReply MSG_MERGING; EvEdit MSG_MERGE_COMPLETE;
            EvReplyVideo r c CAPTION; EvEdit MSG_MERGE_SENT ]
      ∧ ((∀ p, p ∈ pending u s → removable os s1 p) →
         rm_error os r = None →
         (∀ p, p ∈ pending u s → files s' !! p = None)
         ∧ files s' !! r = None
         ∧ (∀ p b, parent p = user_dir_of u → rm_error os p = None →
                   files s' !! p ≠ Some (File b))).
Proof.
  intros Hlen Hrun Hr.
  destruct (merge_videos_quiet _ _ _ _ _ _ Hrun) as [Huv (t & Ht & Hsh)].
  pose proof (merge_videos_dir _ _ _ _ _ _ Hrun) as Hdir.
  pose proof (merge_videos_returns _ _ _ _ _ _ Hrun) as Hw.
  set (sd := record_events [EvReplyVideo r c CAPTION]
               (record_events [EvEdit MSG_MERGE_COMPLETE] s1)).
  destruct (clean_user_videos_never_raises os u (pending u s) (Some r) sd)
    as ([] & sc & Ec).
  destruct (clean_user_videos_quiet _ _ _ _ _ _ _ Ec)
    as [Huvc (tc & Htc & Hshc)].
  exists sc. split; [exact Ec|].
  assert (merge_command os u s
          = (inr tt, record_events [EvEdit MSG_MERGE_SENT]
                       (set_user_videos (<[u := []]>) sc))) as E.
  { unfold merge_command. unfold bind at 1, gets at 1.
    rewrite too_few_false by done.
    cbv [try_except bind reply_text edit_text emit modify gets log open_rb
         ret].
    change (pending u (record_events [EvReply MSG_MERGING] s))
      with (pending u s).
    rewrite Hrun. simpl. rewrite Hr.
    replace (pending u
               (record_events [EvReplyVideo r c CAPTION]
                  (record_events [EvEdit MSG_MERGE_COMPLETE] s1)))
      with (pending u s) by (unfold pending; simpl; by rewrite Huv).
    fold sd. by rewrite Ec. }
  split; [exact E|]. rewrite E. simpl.
  split; [|split; [|split]].
  - unfold pending. simpl. by rewrite lookup_insert_eq.
  - exists tc. rewrite Htc. subst sd. simpl. by rewrite <- !app_assoc.
  - rewrite Htc. subst sd. simpl. rewrite Ht. simpl.
    rewrite !shown_app, Hsh, Hshc. simpl.
    by rewrite !app_nil_r, <- !app_assoc.
  - intros Hps Hrr.
    destruct (clean_user_videos_permitted os u (pending u s) r sd)
      as (sc' & Ec' & Nps & Nr & Ndir); try done.
    { split; [exact Hrr|]. simpl. by rewrite Hr. }
    { subst r. apply watermarked_path_nonempty. }
    rewrite Ec in Ec'. by simplify_eq.
Qed.

Lemma record_upload (uv : gmap Z (list string)) u p :
  alter (λ l, l ++ [p]) u
    (if bool_decide (is_Some (uv !! u)) then uv else <[u := []]> uv)
  = <[u := default [] (uv !! u) ++ [p]]> uv.
Proof.
  destruct (uv !! u) as [l|] eqn:E; simpl.
  - apply map_eq. intros j. destruct (decide (u = j)) as [<-|Hne].
    + by rewrite lookup_alter_eq, lookup_insert_eq, E.
    + by rewrite lookup_alter_ne, lookup_insert_ne.
  - by rewrite alter_insert_eq.
Qed.

(** An upload within the limit whose download goes through. *)
Lemma handle_video_accepts u v s bytes :
  (file_size v ≤ 50 * (1024 * 1024))%Z →
  get_file v = inr (inr bytes) →
  let p := stored_path os u (uuid_count s) in
  ∃ s', handle_video os u v s = (inr tt, s')
        ∧ user_videos s' = <[u := pending u s ++ [p]]> (user_videos s)
        ∧ files s' = <[p := File bytes]> (<[user_dir_of u := Dir]> (files s))
        ∧ uuid_count s' = S (uuid_count s)
        ∧ trace s'
          = trace s ++
            [ EvReply MSG_DOWNLOADING; EvDownload p;
              EvLog LvlInfo ("Stored video for user " +:+ pretty u
                             +:+ " at " +:+ p);
              EvEdit (MSG_SAVED (length (pending u s) + 1)) ].
Proof.
  intros Hsmall Hget p. unfold handle_video, over_limit.
  rewrite bool_decide_false by lia. rewrite Hget.
  cbv [try_except bind reply_text edit_text emit modify gets log ret
       store_video download_to_drive mkdir uuid].
  eexists. split; [reflexivity|]. simpl.
  split; [apply record_upload|]. split; [done|]. split; [done|].
  unfold pending at 1. simpl. rewrite record_upload, lookup_insert_eq.
  simpl. rewrite length_app. simpl.
  by rewrite <- !app_assoc.
Qed.

(** After [N] accepted uploads in a row the pending list has grown by the
    [N] stored paths, in upload order. *)
Lemma uploads_accumulate_in_order u vs s :
  Forall (λ v, (file_size v ≤ 50 * (1024 * 1024))%Z
               ∧ ∃ bytes, get_file v = inr (inr bytes)) vs →
  ∃ s', for_each vs (handle_video os u) s = (inr tt, s')
        ∧ pending u s'
          = pending u s
            ++ map (stored_path os u) (seq (uuid_count s) (length vs))
        ∧ length (pending u s') = length (pending u s) + length vs.
Proof.
  intros Hvs. revert s.
  induction Hvs as [|v vs [Hsmall [bytes Hget]] _ IH]; intros s; simpl.
  - exists s. split; [done|]. rewrite app_nil_r. split; [done | lia].
  - destruct (handle_video_accepts u v s bytes Hsmall Hget)
      as (s1 & E1 & Huv1 & _ & Hn1 & _).
    destruct (IH s1) as (s' & E' & Hp' & _).
    unfold bind. rewrite E1. exists s'. split; [exact E'|].
    assert (pending u s1 = pending u s ++ [stored_path os u (uuid_count s)])
      as Hp1.
    { unfold pending at 1. by rewrite Huv1, lookup_insert_eq. }
    assert (pending u s'
            = pending u s
              ++ stored_path os u (uuid_count s)
                 :: map (stored_path os u)
                        (seq (S (uuid_count s)) (length vs))) as Hp.
    { by rewrite Hp', Hp1, Hn1, <- app_assoc. }
    split; [exact Hp|].
    rewrite Hp, length_app. simpl. rewrite length_map, length_seq. lia.
Qed.


(** Cleanup of a list whose paths may all be removed leaves none of them. *)
Lemma clean_user_videos_removes_listed u ps s :
  (∀ p, p ∈ ps → removable os s p) →
  ∀ p, p ∈ ps → files (clean_user_videos os u ps None s).2 !! p = None.
Proof.
  intros Hps p Hp.
  destruct (remove_videos_ok os ps s Hps) as (s1 & E1 & Sh1 & N1).
  destruct (sweep_user_dir_ok os u s1) as (s3 & E3 & Sh3 & _).
  unfold clean_user_videos, try_except, bind, remove_result. simpl.
  rewrite E1. unfold ret. rewrite E3. simpl.
  eapply shrinks_none; [exact Sh3 | by apply N1].
Qed.

(** C9, as the code has it. A reset request of a user with pending uploads
    empties the pending list, creates nothing on disk, reports success, and
    leaves none of the pending files on disk when each of them may be
    removed (no removal refused, no path a directory).  A reset request
    of a user without pending uploads (empty list or no entry) only sends
    the informational message: session table and disk are untouched. *)
Theorem C9_reset u s :
  (pending u s ≠ [] →
   ∃ s', reset_command os u s = (inr tt, s')
         ∧ user_videos s' = <[u := []]> (user_videos s)
         ∧ files s' ⊆ files s
         ∧ shown (trace s') = shown (trace s) ++ [EvReply MSG_CLEARED]
         ∧ ((∀ p, p ∈ pending u s → removable os s p) →
            ∀ p, p ∈ pending u s → files s' !! p = None))
  ∧ (pending u s = [] →
     reset_command os u s
     = (inr tt, record_events [EvReply MSG_NOTHING_TO_CLEAR] s)).
Proof.
  split.
  - intros Hne. unfold reset_command. unfold bind at 1, gets at 1.
    rewrite has_videos_true by done.
    cbv [bind gets reply_text emit modify].
    destruct (clean_user_videos os u (pending u s) None s)
      as [[e|[]] sc] eqn:Ec.
    { destruct (clean_user_videos_never_raises os u (pending u s) None s)
        as (a & s' & E'). congruence. }
    destruct (clean_user_videos_quiet _ _ _ _ _ _ _ Ec)
      as [Huv (t & Ht & Hsh)].
    pose proof (clean_user_videos_shrinks _ _ _ _ _ _ _ Ec) as Hsub.
    eexists. split; [reflexivity|]. simpl.
    split; [by rewrite Huv|]. split; [exact Hsub|]. split.
    + rewrite Ht, !shown_app, Hsh. simpl. by rewrite app_nil_r.
    + intros Hps p Hp.
      pose proof (clean_user_videos_removes_listed u _ s Hps p Hp) as H.
      by rewrite Ec in H.
  - intros Hnil. unfold reset_command, bind, gets.
    by rewrite has_videos_false.
Qed.

(** C10. [clean_user_videos] returns normally for every user, path list,
    result path and state, whatever the operating system refuses: the sweep
    of the user's directory never raises, and an exception of the [try]
    block is turned into one logged error. *)
Theorem C10_cleanup_never_raises u ps r s :
  (∃ s', clean_user_videos os u ps r s = (inr tt, s'))
  ∧ never_raises (sweep_user_dir os u)
  ∧ (∀ e s1,
       bind (remove_videos os ps)
            (λ _, bind (remove_result os r) (λ _, sweep_user_dir os u)) s
       = (inl e, s1) →
       clean_user_videos os u ps r s
       = (inr tt,
          record_events
            [EvLog LvlError ("Error cleaning up user videos: " +:+ e)] s1)).
Proof.
  split; [|split].
  - destruct (clean_user_videos_never_raises os u ps r s) as ([] & s' & E).
    by exists s'.
  - apply sweep_user_dir_never_raises.
  - intros e s1 E. unfold clean_user_videos, try_except. by rewrite E.
Qed.
End Handlers.
End HandlerFacts.

(** ** The watermark filter *)

Module WatermarkFacts.
Import Runtime VideoProcessor Props WorldFacts.
Local Open Scope monad_scope.

Lemma position_map_anchors : position_map = list_to_map anchors.
Proof. reflexivity. Qed.

Lemma position_coords_anchor a c : (a, c) ∈ anchors → position_coords a = c.
Proof.
  unfold anchors. rewrite !elem_of_cons, elem_of_nil.
  intros [H|[H|[H|[H|[H|[]]]]]]; injection H as -> ->; reflexivity.
Qed.

Lemma position_coords_unknown p :
  p ∉ anchors.*1 → position_coords p = BOTTOM_RIGHT.
Proof.
  intros H. unfold position_coords. rewrite position_map_anchors.
  by rewrite (not_elem_of_list_to_map_1 _ _ H).
Qed.

Lemma position_coords_cases p :
  position_coords p ∈ BOTTOM_RIGHT :: anchors.*2.
Proof.
  unfold position_coords. rewrite position_map_anchors.
  destruct (list_to_map anchors !! p) as [c|] eqn:E; simpl.
  - right. apply elem_of_list_to_map_2 in E.
    by apply (list_elem_of_fmap_2 snd) in E.
  - left.
Qed.

Lemma filter_text_shape position :
  filter_text position
  = drawtext WATERMARK_TEXT (position_coords position) +:+ ", "
    +:+ drawtext EMAIL_TEXT TOP_CENTER.
Proof. unfold filter_text, drawtext. by rewrite !append_assoc. Qed.

Lemma filter_text_two_ops position :
  occurrences "drawtext=" (filter_text position) = 2.
Proof.
  unfold filter_text.
  pose proof (position_coords_cases position) as H.
  revert H. generalize (position_coords position). intros c.
  unfold anchors. simpl. rewrite !elem_of_cons, elem_of_nil.
  intros [->|[->|[->|[->|[->|[->|[]]]]]]]; vm_compute; reflexivity.
Qed.

End WatermarkFacts.

(** ** The two stages, and the concrete runs *)

Module StageFacts.
Import Runtime VideoProcessor Bot Props.
Import MonadFacts WorldFacts FrameFacts CleanupFacts PipelineFacts.
Import OutcomeFacts HandlerFacts WatermarkFacts.
Local Open Scope monad_scope.

Section Stages.
Variable os : OS.

Lemma apply_watermark_spawns i o s :
  spawned (trace (apply_watermark os i o s).2)
  = spawned (trace s) ++ [watermark_cmd POSITION i o].
Proof.
  unfold apply_watermark, apply_watermark_at. run. simpl.
  destruct (output _), (bool_decide _); simpl;
    by rewrite <- ?app_assoc, !spawned_app.
Qed.

(** C8, as the code has it. The watermark stage starts one subprocess with
    one [-vf] argument; the filter is two text-draw operations joined in one
    chain: the watermark text at the coordinates the lookup table gives for
    the configured anchor, and the e-mail text centered at the top, both in
    the fixed font, color, size and shadow offset.  The table knows the
    anchors [center], [bottom], [bottom-right], [top-left] and [top-right];
    any other name gets the bottom-right coordinates. *)
Theorem C8_watermark_filter position input_path output_path :
  (∀ s, spawned (trace (apply_watermark os input_path output_path s).2)
        = spawned (trace s)
          ++ [watermark_cmd POSITION input_path output_path])
  ∧ watermark_cmd position input_path output_path
    = [ "ffmpeg"; "-i"; input_path; "-vf"; filter_text position;
        "-codec:a"; "copy"; "-y"; output_path ]
  ∧ filter_text position
    = drawtext WATERMARK_TEXT (position_coords position) +:+ ", "
      +:+ drawtext EMAIL_TEXT TOP_CENTER
  ∧ occurrences "drawtext=" (filter_text position) = 2
  ∧ dom position_map
    = list_to_set ["center"; "bottom"; "bottom-right"; "top-left"; "top-right"]
  ∧ (∀ a c, (a, c) ∈ anchors → position_coords a = c)
  ∧ (position ∉ anchors.*1 → position_coords position = BOTTOM_RIGHT).
Proof.
  split; [intros s; apply apply_watermark_spawns|].
  split; [done|].
  split; [apply filter_text_shape|].
  split; [apply filter_text_two_ops|].
  split; [|split].
  - rewrite position_map_anchors, dom_list_to_map_L. reflexivity.
  - apply position_coords_anchor.
  - apply position_coords_unknown.
Qed.

(** The claim's table has an anchor named [bottom-center]; the code's table
    has none of that name, so configuring it gives the bottom-right
    coordinates, not the bottom-center ones, which go by [bottom]. *)
Lemma C8_bottom_center_is_unknown :
  position_map !! "bottom-center" = None
  ∧ ("bottom-center" ∉ dom position_map)
  ∧ position_coords "bottom-center" = BOTTOM_RIGHT
  ∧ position_coords "bottom" = "x=(w-text_w)/2:y=h-th-10"
  ∧ position_coords "bottom-center" ≠ position_coords "bottom".
Proof.
  split; [reflexivity|]. split; [|done].
  apply not_elem_of_dom. reflexivity.
Qed.

(** The pipeline raises when the watermark stage exits non-zero ... *)
Lemma watermark_failure_raises ps u s :
  returncode (concat_run os ps u s) = 0%Z →
  returncode (watermark_run os ps u s) ≠ 0%Z →
  ∃ e s1, merge_videos os ps u s = (inl e, s1).
Proof.
  intros Hc Hw. rewrite merge_videos_unfold. unfold try_finally.
  rewrite merge_attempt_eval.
  unfold finish_attempt, apply_watermark, apply_watermark_at.
  run. rewrite bool_decide_false by (by intros ?). simpl.
  fold (watermark_run os ps u s).
  destruct (output (watermark_run os ps u s)); simpl;
    rewrite bool_decide_true by done;
    repeat case_match; by eexists _, _.
Qed.

(** ... and returns the watermarked path when both stages exit with 0 and
    the list file may be removed. *)
Lemma pipeline_succeeds ps u s :
  returncode (concat_run os ps u s) = 0%Z →
  returncode (watermark_run os ps u s) = 0%Z →
  rm_error os (list_file_of os u s) = None →
  ∃ s1, merge_videos os ps u s = (inr (watermarked_path_of os u s), s1).
Proof.
  intros Hc Hw Hrm. rewrite merge_videos_unfold. unfold try_finally.
  rewrite merge_attempt_eval.
  destruct (finish_attempt os ps u s (after_concat os ps u s))
    as [r sa] eqn:E.
  destruct (finish_attempt_keeps_file os (list_file_of os u s) _ _ _ _ _ _ E
              (after_concat_list_file os ps u s)) as [b Hb].
  rewrite (remove_list_file_ok os _ _ _ Hb Hrm).
  revert E. unfold finish_attempt, apply_watermark, apply_watermark_at.
  run. rewrite bool_decide_false by (by intros ?). simpl.
  fold (watermark_run os ps u s).
  destruct (output (watermark_run os ps u s)); simpl;
    rewrite bool_decide_false by (by intros ?);
    intros [= <- <-]; by eexists.
Qed.
End Stages.

(** *** The scenarios *)

Import Scenario.

(** C4, at a failing input. The operating system refuses to remove the first
    of two pending videos: [clean_user_videos] returns normally, but the only
    removal it has attempted is that of the first video; the second video is
    neither attempted by the loop nor reached by the sweep, and stays on
    disk. *)
Theorem C4_cleanup_stops_at_first_failure :
  let out := clean_user_videos os_locked uid [video_a; video_b] None session in
  out.1 = inr tt
  ∧ attempted (trace out.2) = [video_a]
  ∧ files out.2 !! video_a = Some (File "A")
  ∧ files out.2 !! video_b = Some (File "B").
Proof. vm_compute. repeat split. Qed.

(** The same list is removed entirely once nothing is refused. *)
Lemma cleanup_without_refusal :
  let out := clean_user_videos os_fine uid [video_a; video_b] None session in
  out.1 = inr tt
  ∧ attempted (trace out.2) = [video_a; video_b]
  ∧ files out.2 !! video_a = None
  ∧ files out.2 !! video_b = None.
Proof. vm_compute. repeat split. Qed.

(** The same defect seen from the handlers: with the first pending video
    refused, a delivered merge and a reset both report success and empty the
    list, and leave behind files that could have been removed. *)
Lemma merge_after_refused_input :
  let out := merge_command os_locked uid session in
  shown (trace out.2)
  = [ EvReply MSG_MERGING; EvEdit MSG_MERGE_COMPLETE;
      EvReplyVideo "temp/7/watermarked_id4.mp4" "video" CAPTION;
      EvEdit MSG_MERGE_SENT ]
  ∧ pending uid out.2 = []
  ∧ attempted (trace out.2) = ["temp/7/list_id2.txt"; video_a]
  ∧ files out.2 !! video_b = Some (File "B")
  ∧ files out.2 !! "temp/7/merged_id3.mp4" = Some (File "video")
  ∧ files out.2 !! "temp/7/watermarked_id4.mp4" = Some (File "video").
Proof. vm_compute. repeat split. Qed.

Lemma reset_after_refused_input :
  let out := reset_command os_locked uid session in
  shown (trace out.2) = [EvReply MSG_CLEARED]
  ∧ pending uid out.2 = []
  ∧ attempted (trace out.2) = [video_a]
  ∧ files out.2 !! video_b = Some (File "B").
Proof. vm_compute. repeat split. Qed.


(** C3, as stated, fails: the merge succeeds end to end and the video is
    delivered, but the operating system refuses to remove the merged
    intermediate file; the sweep swallows the refusal, the handler reports
    the merge as done, and a file remains in the user's directory. *)
Lemma C3_refused_leftover_stays :
  let out := merge_command os_leftover_locked uid session in
  out.1 = inr tt
  ∧ shown (trace out.2)
    = [ EvReply MSG_MERGING; EvEdit MSG_MERGE_COMPLETE;
        EvReplyVideo "temp/7/watermarked_id4.mp4" "video" CAPTION;
        EvEdit MSG_MERGE_SENT ]
  ∧ pending uid out.2 = []
  ∧ parent "temp/7/merged_id3.mp4" = user_dir_of uid
  ∧ files out.2 !! "temp/7/merged_id3.mp4" = Some (File "video").
Proof. vm_compute. repeat split. Qed.

(** C9, as stated, fails: the operating system refuses to remove the last
    pending video; the reset request reports success and empties the list,
    and that pending file is still on disk. *)
Lemma C9_refused_upload_stays :
  let out := reset_command os_locked_last uid session in
  out.1 = inr tt
  ∧ shown (trace out.2) = [EvReply MSG_CLEARED]
  ∧ pending uid out.2 = []
  ∧ files out.2 !! video_a = None
  ∧ files out.2 !! video_b = Some (File "B").
Proof. vm_compute. repeat split. Qed.

End StageFacts.

(** ** The theorems at work on the concrete runs *)

Module Witnesses.
Import Runtime VideoProcessor Bot Props Scenario.
Import PipelineFacts HandlerFacts StageFacts.

Lemma session_pending : pending uid session = [video_a; video_b].
Proof. reflexivity. Qed.

Lemma C1_witness :
  merge_command os_fine uid fresh
  = (inr tt, record_events [EvReply MSG_NEED_TWO] fresh).
Proof.
  destruct (C1_merge_needs_two_videos os_fine uid fresh) as [E _].
  - vm_compute. lia.
  - exact E.
Defined.

Lemma C2_witness :
  user_videos (merge_command os_tool_fails uid session).2
  = user_videos session.
Proof.
  destruct (C2_failed_merge_keeps_pending os_tool_fails uid session
              "Failed to merge videos"
              (merge_videos os_tool_fails (pending uid session) uid
                 (record_events [EvReply MSG_MERGING] session)).2)
    as (E & Huv & _).
  - vm_compute. lia.
  - vm_compute. reflexivity.
  - rewrite E. exact Huv.
Defined.

Lemma C3_witness :
  pending uid (merge_command os_fine uid session).2 = []
  ∧ files (merge_command os_fine uid session).2 !! video_a = None
  ∧ files (merge_command os_fine uid session).2 !! video_b = None
  ∧ files (merge_command os_fine uid session).2
      !! "temp/7/watermarked_id4.mp4" = None
  ∧ files (merge_command os_fine uid session).2
      !! "temp/7/merged_id3.mp4" ≠ Some (File "video").
Proof.
  destruct (C3_successful_merge_delivers_then_cleans os_fine uid session
              "temp/7/watermarked_id4.mp4"
              (merge_videos os_fine (pending uid session) uid
                 (record_events [EvReply MSG_MERGING] session)).2
              "video")
    as (sc & _ & _ & Hp & _ & _ & Hclean).
  - vm_compute. lia.
  - vm_compute. reflexivity.
  - vm_compute. reflexivity.
  - destruct Hclean as (Hin & Hr & Hd).
    + intros p Hp'. rewrite session_pending in Hp'.
      rewrite !elem_of_cons, elem_of_nil in Hp'.
      destruct Hp' as [->|[->|[]]]; split; vm_compute; congruence.
    + reflexivity.
    + rewrite session_pending in Hin.
      split; [exact Hp|]. split; [apply Hin; left|].
      split; [apply Hin; right; left|]. split; [exact Hr|].
      apply Hd; reflexivity.
Defined.




Lemma C9_witness :
  files (reset_command os_fine uid session).2 !! video_a = None
  ∧ files (reset_command os_fine uid session).2 !! video_b = None
  ∧ reset_command os_fine uid fresh
    = (inr tt, record_events [EvReply MSG_NOTHING_TO_CLEAR] fresh).
Proof.
  destruct (C9_reset os_fine uid session) as [Hsome _].
  destruct (C9_reset os_fine uid fresh) as [_ Hnone].
  destruct Hsome as (s' & E & _ & _ & _ & Hgone).
  { rewrite session_pending. discriminate. }
  rewrite E. simpl. rewrite session_pending in Hgone.
  assert (∀ p, p ∈ [video_a; video_b] → removable os_fine session p) as Hok.
  { intros p Hp. rewrite !elem_of_cons, elem_of_nil in Hp.
    destruct Hp as [->|[->|[]]]; split; vm_compute; congruence. }
  split; [apply Hgone; [exact Hok | left]|].
  split; [apply Hgone; [exact Hok | right; left]|].
  apply Hnone. reflexivity.
Defined.

End Witnesses.

(** ** More about computations, states and paths *)

Module MoreFacts.
Import Runtime VideoProcessor Bot Props MoreProps.
Import MonadFacts WorldFacts FrameFacts.
Local Open Scope monad_scope.

Lemma preserves_weaken {A} (R R' : relation State) (m : M A) :
  (∀ s s', R s s' → R' s s') → preserves R m → preserves R' m.
Proof. intros HR Hm s r s' E. eapply HR, Hm, E. Qed.

(** A loop over [l] in which only the elements of [l] matter. *)
Lemma preserves_for_each_in {A} (R : relation State) `{!PreOrder R}
    (l : list A) body :
  (∀ x, x ∈ l → preserves R (body x)) → preserves R (for_each l body).
Proof.
  induction l as [|x l IH]; intros Hb; simpl.
  - by apply preserves_ret.
  - apply preserves_bind; [done | apply Hb; left | intros _].
    apply IH. intros y Hy. apply Hb. by right.
Qed.

#[export] Instance extends_preorder : PreOrder extends.
Proof.
  split.
  - intros s. exists []. by rewrite app_nil_r.
  - intros s1 s2 s3 [t1 H1] [t2 H2]. exists (t1 ++ t2).
    by rewrite H2, H1, app_assoc.
Qed.

#[export] Instance others_same_preorder u : PreOrder (others_same u).
Proof.
  split.
  - by intros s u' _.
  - intros s1 s2 s3 H1 H2 u' Hu. by rewrite H2, H1.
Qed.

#[export] Instance keeps_at_preorder q : PreOrder (keeps_at q).
Proof.
  split; unfold keeps_at; [done | intros s1 s2 s3; congruence].
Qed.

#[export] Instance same_uuids_preorder : PreOrder same_uuids.
Proof.
  split; unfold same_uuids; [done | intros s1 s2 s3; congruence].
Qed.

Lemma quiet_extends s s' : quiet s s' → extends s s'.
Proof. intros [_ (t & Ht & _)]. by exists t. Qed.

Lemma quiet_others_same u s s' : quiet s s' → others_same u s s'.
Proof. intros [Huv _] u' _. by rewrite Huv. Qed.

Lemma extends_record evs s : extends s (record_events evs s).
Proof. by exists evs. Qed.

Lemma extends_set_files f s : extends s (set_files f s).
Proof. exists []. by rewrite app_nil_r. Qed.

Lemma extends_set_user_videos f s : extends s (set_user_videos f s).
Proof. exists []. by rewrite app_nil_r. Qed.

Lemma extends_bump_uuid s : extends s (bump_uuid s).
Proof. exists []. by rewrite app_nil_r. Qed.

Lemma others_same_record u evs s : others_same u s (record_events evs s).
Proof. by intros u' _. Qed.

Lemma others_same_set_files u f s : others_same u s (set_files f s).
Proof. by intros u' _. Qed.

Lemma others_same_bump_uuid u s : others_same u s (bump_uuid s).
Proof. by intros u' _. Qed.

Lemma others_same_insert u l s :
  others_same u s (set_user_videos (<[u := l]>) s).
Proof. intros u' Hu. simpl. by rewrite lookup_insert_ne. Qed.

Lemma others_same_alter u f s :
  others_same u s (set_user_videos (alter f u) s).
Proof. intros u' Hu. simpl. by rewrite lookup_alter_ne. Qed.

Lemma others_same_create u s :
  others_same u s
    (set_user_videos
       (λ uv, if bool_decide (is_Some (uv !! u)) then uv else <[u := []]> uv)
       s).
Proof.
  intros u' Hu. simpl. case_bool_decide; [done|].
  by rewrite lookup_insert_ne.
Qed.

Lemma keeps_at_record q evs s : keeps_at q s (record_events evs s).
Proof. done. Qed.

Lemma keeps_at_bump_uuid q s : keeps_at q s (bump_uuid s).
Proof. done. Qed.

Lemma keeps_at_set_user_videos q f s : keeps_at q s (set_user_videos f s).
Proof. done. Qed.

Lemma keeps_at_insert q p x s :
  p ≠ q → keeps_at q s (set_files (<[p := x]>) s).
Proof. intros Hp. unfold keeps_at. simpl. by rewrite lookup_insert_ne. Qed.

Lemma keeps_at_delete q p s : p ≠ q → keeps_at q s (set_files (delete p) s).
Proof. intros Hp. unfold keeps_at. simpl. by rewrite lookup_delete_ne. Qed.

Lemma keeps_file_mkdir p d s :
  d ≠ p → keeps_file p s (set_files (<[d := Dir]>) s).
Proof. intros Hd [b Hb]. exists b. simpl. by rewrite lookup_insert_ne. Qed.

Lemma keeps_file_set_user_videos p f s :
  keeps_file p s (set_user_videos f s).
Proof. by intros H. Qed.

(** *** Strings and paths *)

Lemma append_inj_r (a b c : string) : a +:+ c = b +:+ c → a = b.
Proof.
  revert b. induction a as [|x a IH]; intros [|y b] H.
  - done.
  - apply (f_equal String.length) in H.
    rewrite !length_append in H. simpl in H. lia.
  - apply (f_equal String.length) in H.
    rewrite !length_append in H. simpl in H. lia.
  - change (String x (a +:+ c) = String y (b +:+ c)) in H.
    injection H as -> H. f_equal. by apply IH.
Qed.

Lemma has_slash_append a b :
  has_slash (a +:+ b) = has_slash a || has_slash b.
Proof.
  induction a as [|x a IH]; [done|].
  change (has_slash (String x (a +:+ b))
          = has_slash (String x a) || has_slash b).
  simpl. rewrite IH. by rewrite orb_assoc.
Qed.

Lemma split_parent_no_slash n : has_slash n = false → split_parent n = None.
Proof.
  induction n as [|c n IH]; simpl; [done|].
  intros [Hc Hn]%orb_false_iff. by rewrite (IH Hn), Hc.
Qed.

Lemma split_parent_path_join d n :
  has_slash n = false → split_parent (path_join d n) = Some d.
Proof.
  intros Hn. unfold path_join. induction d as [|c d IH].
  - change (split_parent (String slash n) = Some EmptyString).
    simpl. by rewrite (split_parent_no_slash n Hn).
  - change (split_parent (String c (d +:+ "/" +:+ n)) = Some (String c d)).
    simpl. by rewrite IH.
Qed.

(** [(d / n).parent == d] for a name without separator. *)
Lemma parent_path_join d n : has_slash n = false → parent (path_join d n) = d.
Proof. intros Hn. unfold parent. by rewrite split_parent_path_join. Qed.

Lemma pretty_N_go_no_slash x s :
  has_slash s = false → has_slash (pretty_N_go x s) = false.
Proof.
  revert s. induction (N.lt_wf_0 x) as [x _ IH]; intros s Hs.
  assert (x = 0 ∨ 0 < x)%N as [->|Hx] by lia.
  - by rewrite pretty_N_go_0.
  - rewrite pretty_N_go_step by done. apply IH.
    { by apply N.div_lt. }
    simpl. rewrite Hs. unfold pretty_N_char. by repeat case_match.
Qed.

Lemma pretty_N_no_slash (n : N) : has_slash (pretty n) = false.
Proof.
  unfold pretty, pretty_N. case_decide; [done|].
  by apply pretty_N_go_no_slash.
Qed.

Lemma pretty_nat_no_slash (n : nat) : has_slash (pretty n) = false.
Proof. apply pretty_N_no_slash. Qed.

Lemma pretty_Z_no_slash (z : Z) : has_slash (pretty z) = false.
Proof.
  destruct z as [|p|p]; [done | apply pretty_N_no_slash |].
  change (has_slash ("-" +:+ pretty (Npos p)) = false).
  rewrite has_slash_append. by rewrite pretty_N_no_slash.
Qed.

(** Different users have different directories. *)
Lemma user_dir_of_inj u u' : user_dir_of u = user_dir_of u' → u = u'.
Proof.
  unfold user_dir_of. intros H%path_join_inj. by apply (inj pretty).
Qed.

Lemma parent_user_dir_of u : parent (user_dir_of u) = TEMP_DIR.
Proof. apply parent_path_join, pretty_Z_no_slash. Qed.

(** The scratch root is no user's directory. *)
Lemma user_dir_of_not_root u : user_dir_of u ≠ TEMP_DIR.
Proof. apply path_join_neq. Qed.

End MoreFacts.

(** ** The handlers, outside the happy path *)

Module SessionFacts.
Import Runtime VideoProcessor Bot Props Calls MoreProps.
Import MonadFacts WorldFacts FrameFacts CleanupFacts HandlerFacts MoreFacts.
Local Open Scope monad_scope.

Lemma has_videos_false_inv u s : has_videos u s = false → pending u s = [].
Proof.
  unfold pending, has_videos.
  by destruct (user_videos s !! u) as [[|p l]|].
Qed.

Lemma too_few_false_inv u s : too_few u s = false → 2 ≤ length (pending u s).
Proof.
  unfold pending, too_few. destruct (user_videos s !! u); simpl; [|done].
  intros H%bool_decide_eq_false. lia.
Qed.

Section Handlers.
Variable os : OS.

Ltac others_leaf :=
  first [ apply others_same_record | apply others_same_set_files
        | apply others_same_bump_uuid | apply others_same_insert
        | apply others_same_alter | apply others_same_create ].

Lemma handle_video_others u v : preserves (others_same u) (handle_video os u v).
Proof.
  unfold handle_video, store_video, download_to_drive, reply_text, edit_text.
  frame; others_leaf.
Qed.

Lemma merge_command_others u : preserves (others_same u) (merge_command os u).
Proof.
  unfold merge_command, reply_text, edit_text.
  frame_with ltac:(first
    [ apply (preserves_weaken quiet);
        [apply quiet_others_same | apply merge_videos_quiet]
    | apply (preserves_weaken quiet);
        [apply quiet_others_same | apply clean_user_videos_quiet] ]);
    others_leaf.
Qed.

Lemma reset_command_others u : preserves (others_same u) (reset_command os u).
Proof.
  unfold reset_command, reply_text.
  frame_with ltac:(
    apply (preserves_weaken quiet);
      [apply quiet_others_same | apply clean_user_videos_quiet]);
    others_leaf.
Qed.

(** X2. Whatever a user's upload, merge request or reset request does, and
    however it ends, the pending lists of all other users are exactly as
    before (absent entries stay absent). *)
Theorem X2_other_users_untouched u u' v s :
  u' ≠ u →
  user_videos (handle_video os u v s).2 !! u' = user_videos s !! u'
  ∧ user_videos (merge_command os u s).2 !! u' = user_videos s !! u'
  ∧ user_videos (reset_command os u s).2 !! u' = user_videos s !! u'.
Proof.
  intros Hu. split; [|split].
  - destruct (handle_video os u v s) as [r s'] eqn:E.
    by apply (handle_video_others _ _ _ _ _ E).
  - destruct (merge_command os u s) as [r s'] eqn:E.
    by apply (merge_command_others _ _ _ _ E).
  - destruct (reset_command os u s) as [r s'] eqn:E.
    by apply (reset_command_others _ _ _ _ E).
Qed.

(** X3. An upload within the size limit whose file cannot be fetched, or
    whose transfer breaks off with exception [e], is not recorded: the
    session table is as before, [e] is logged, and the user sees the
    download notice followed by the generic error message. *)
Theorem X3_failed_download_not_recorded u v s e :
  (file_size v ≤ 50 * (1024 * 1024))%Z →
  get_file v = inl e ∨ get_file v = inr (inl e) →
  let out := handle_video os u v s in
  out.1 = inr tt
  ∧ user_videos out.2 = user_videos s
  ∧ EvLog LvlError ("Error handling video: " +:+ e) ∈ trace out.2
  ∧ shown (trace out.2)
    = shown (trace s) ++ [EvReply MSG_DOWNLOADING; EvReply MSG_VIDEO_ERROR].
Proof.
  intros Hsmall Hget. unfold handle_video, over_limit.
  rewrite bool_decide_false by lia.
  destruct Hget as [-> | ->];
    cbv [try_except bind reply_text edit_text emit modify gets log ret raise
         store_video download_to_drive mkdir uuid fst snd]; simpl.
  - split; [done|]. split; [done|]. split.
    + rewrite !elem_of_app. left. right. left.
    + rewrite !shown_app. simpl. by rewrite app_nil_r, <- app_assoc.
  - split; [done|]. split; [done|]. split.
    + rewrite !elem_of_app. left. right. left.
    + rewrite !shown_app. simpl. by rewrite app_nil_r, <- app_assoc.
Qed.
End Handlers.
End SessionFacts.

Module MergeFacts.
Import Runtime VideoProcessor Bot Props Calls MoreProps.
Import MonadFacts WorldFacts FrameFacts CleanupFacts PipelineFacts.
Import HandlerFacts MoreFacts SessionFacts.
Local Open Scope monad_scope.

Lemma clean_user_videos_returns os u ps r s :
  ∃ s', clean_user_videos os u ps r s = (inr tt, s').
Proof.
  destruct (clean_user_videos_never_raises os u ps r s) as ([] & s' & E).
  by exists s'.
Qed.

(** Replaces a run of the cleanup by its normal outcome. *)
Ltac run_cleanup :=
  match goal with
  | |- context [clean_user_videos ?os ?u ?ps ?r ?st] =>
      let cleaned := fresh "cleaned" in
      let Ec := fresh "Ec" in
      destruct (clean_user_videos_returns os u ps r st) as [cleaned Ec];
      rewrite Ec
  end.

Section Merge.
Variable os : OS.

(** The handler once the guard has let the request through. *)
Lemma merge_command_runs u s :
  2 ≤ length (pending u s) →
  merge_command os u s
  = match merge_videos os (pending u s) u
            (record_events [EvReply MSG_MERGING] s) with
    | (inl e, s1) =>
        (inr tt,
         record_events [EvReply MSG_MERGE_ERROR]
           (record_events [EvLog LvlError ("Error merging videos: " +:+ e)]
              s1))
    | (inr r, s1) =>
        let s2 := record_events [EvEdit MSG_MERGE_COMPLETE] s1 in
        match open_rb r s2 with
        | (inl e, s3) =>
            (inr tt,
             record_events [EvReply MSG_MERGE_ERROR]
               (record_events
                  [EvLog LvlError ("Error merging videos: " +:+ e)] s3))
        | (inr c, s3) =>
            let s4 := record_events [EvReplyVideo r c CAPTION] s3 in
            match clean_user_videos os u (pending u s4) (Some r) s4 with
            | (inl e, s5) =>
                (inr tt,
                 record_events [EvReply MSG_MERGE_ERROR]
                   (record_events
                      [EvLog LvlError ("Error merging videos: " +:+ e)] s5))
            | (inr _, s5) =>
                (inr tt,
                 record_events [EvEdit MSG_MERGE_SENT]
                   (set_user_videos (<[u := []]>) s5))
            end
        end
    end.
Proof.
  intros Hlen. unfold merge_command. unfold bind at 1, gets at 1.
  rewrite too_few_false by done.
  cbv [try_except bind reply_text edit_text emit modify gets log].
  change (pending u (record_events [EvReply MSG_MERGING] s))
    with (pending u s).
  destruct (merge_videos os (pending u s) u
              (record_events [EvReply MSG_MERGING] s)) as [[e|r] s1];
    [done|].
  cbv zeta.
  destruct (open_rb r (record_events [EvEdit MSG_MERGE_COMPLETE] s1))
    as [[e|c] s3]; [done|].
  by destruct (clean_user_videos os u
                 (pending u (record_events [EvReplyVideo r c CAPTION] s3))
                 (Some r) (record_events [EvReplyVideo r c CAPTION] s3))
    as [[e|[]] s5].
Qed.

(** X4. The pipeline has returned a path at which there is no regular file
    (the tool exited with 0 without writing its output): the handler has
    already announced completion, then reports the generic failure; nothing
    is delivered, nothing is cleaned up and the pending list is kept. *)
Theorem X4_missing_result_is_a_failed_merge u s r s1 :
  2 ≤ length (pending u s) →
  merge_videos os (pending u s) u (record_events [EvReply MSG_MERGING] s)
  = (inr r, s1) →
  (∀ c, files s1 !! r ≠ Some (File c)) →
  let out := merge_command os u s in
  out.1 = inr tt
  ∧ user_videos out.2 = user_videos s
  ∧ files out.2 = files s1
  ∧ shown (trace out.2)
    = shown (trace s) ++
      [EvReply MSG_MERGING; EvEdit MSG_MERGE_COMPLETE; EvReply MSG_MERGE_ERROR].
Proof.
  intros Hlen Hrun Hr.
  destruct (merge_videos_quiet _ _ _ _ _ _ Hrun) as [Huv (t & Ht & Hsh)].
  cbv zeta. rewrite merge_command_runs, Hrun by done. cbv zeta.
  unfold open_rb, bind, gets, ret, raise. simpl.
  destruct (files s1 !! r) as [[c|]|] eqn:E; [by destruct (Hr c)|..]; simpl;
    (split; [done|]; split; [done|]; split; [done|]);
    rewrite Ht; simpl; rewrite !shown_app, Hsh; simpl;
    by rewrite !app_nil_r, <- !app_assoc.
Qed.

(** X5. All or nothing: a merge request that passes the guard ends in one of
    three ways.  Either the final video has been sent and the user's pending
    list is now empty, or the user has been told of a failure, before or
    after the completion notice, and the session table is exactly as it
    was.  The uploads are given up only after the delivery. *)
Theorem X5_merge_all_or_nothing u s :
  2 ≤ length (pending u s) →
  let s' := (merge_command os u s).2 in
  (user_videos s' = <[u := []]> (user_videos s)
   ∧ ∃ r c, shown (trace s')
            = shown (trace s) ++
              [ EvReply MSG_MERGING; EvEdit MSG_MERGE_COMPLETE;
                EvReplyVideo r c CAPTION; EvEdit MSG_MERGE_SENT ])
  ∨ (user_videos s' = user_videos s
     ∧ (shown (trace s')
        = shown (trace s) ++ [EvReply MSG_MERGING; EvReply MSG_MERGE_ERROR]
        ∨ shown (trace s')
          = shown (trace s) ++
            [ EvReply MSG_MERGING; EvEdit MSG_MERGE_COMPLETE;
              EvReply MSG_MERGE_ERROR ])).
Proof.
  intros Hlen. cbv zeta. rewrite merge_command_runs by done.
  destruct (merge_videos os (pending u s) u
              (record_events [EvReply MSG_MERGING] s)) as [[e|r] s1] eqn:Hrun;
    destruct (merge_videos_quiet _ _ _ _ _ _ Hrun) as [Huv (t & Ht & Hsh)].
  - right. split; [done|]. left. simpl. rewrite Ht. simpl.
    rewrite !shown_app, Hsh. simpl. by rewrite !app_nil_r, <- !app_assoc.
  - cbv zeta. unfold open_rb, bind, gets, ret, raise. simpl.
    destruct (files s1 !! r) as [[c|]|] eqn:E; simpl.
    + run_cleanup.
      destruct (clean_user_videos_quiet _ _ _ _ _ _ _ Ec)
        as [Huvc (tc & Htc & Hshc)]; simpl in *.
      left. split; [by rewrite Huvc, Huv|]. exists r, c.
      rewrite Htc. simpl. rewrite Ht. simpl.
      rewrite !shown_app, Hsh, Hshc. simpl.
      by rewrite !app_nil_r, <- !app_assoc.
    + right. split; [done|]. right. rewrite Ht. simpl.
      rewrite !shown_app, Hsh. simpl. by rewrite !app_nil_r, <- !app_assoc.
    + right. split; [done|]. right. rewrite Ht. simpl.
      rewrite !shown_app, Hsh. simpl. by rewrite !app_nil_r, <- !app_assoc.
Qed.

Lemma reset_command_clears u s : pending u (reset_command os u s).2 = [].
Proof.
  unfold reset_command. unfold bind at 1, gets at 1.
  destruct (has_videos u s) eqn:Hv.
  - cbv [bind gets reply_text emit modify]. run_cleanup.
    unfold pending. simpl. by rewrite lookup_insert_eq.
  - simpl. by apply has_videos_false_inv.
Qed.

(** X6. A reset request always leaves the user without pending uploads,
    whatever the state before and whatever the cleanup met; a merge request
    right after it is turned down with the precondition message, and a
    second reset request only reports that there is nothing to clear. *)
Theorem X6_after_reset_nothing_is_pending u s :
  let s1 := (reset_command os u s).2 in
  pending u s1 = []
  ∧ merge_command os u s1 = (inr tt, record_events [EvReply MSG_NEED_TWO] s1)
  ∧ reset_command os u s1
    = (inr tt, record_events [EvReply MSG_NOTHING_TO_CLEAR] s1).
Proof.
  cbv zeta. pose proof (reset_command_clears u s) as Hnil.
  split; [exact Hnil|]. split.
  - unfold merge_command, bind, gets. rewrite too_few_true; [done|].
    rewrite Hnil. simpl. lia.
  - unfold reset_command, bind, gets. by rewrite has_videos_false.
Qed.
End Merge.
End MergeFacts.

Module FootprintFacts.
Import Runtime VideoProcessor Bot Props Calls MoreProps.
Import MonadFacts WorldFacts FrameFacts CleanupFacts PipelineFacts.
Import HandlerFacts MoreFacts SessionFacts MergeFacts.
Local Open Scope monad_scope.

Section Footprint.
Variable os : OS.

Ltac keeps_at_leaf :=
  first [ apply keeps_at_record | apply keeps_at_bump_uuid
        | apply keeps_at_set_user_videos
        | apply keeps_at_insert; first [ done | by apply not_eq_sym ]
        | apply keeps_at_delete; first [ done | by apply not_eq_sym ] ].

Lemma os_remove_keeps_at q p :
  p ≠ q → preserves (keeps_at q) (os_remove os p).
Proof. intros Hp. unfold os_remove. frame; keeps_at_leaf. Qed.

Lemma remove_videos_keeps_at q ps :
  q ∉ ps → preserves (keeps_at q) (remove_videos os ps).
Proof.
  intros Hq. unfold remove_videos.
  apply preserves_for_each_in; [apply _|]. intros p Hp.
  assert (p ≠ q) by (intros ->; done).
  frame_with ltac:(by apply os_remove_keeps_at); keeps_at_leaf.
Qed.

Lemma remove_result_keeps_at q r :
  r ≠ Some q → preserves (keeps_at q) (remove_result os r).
Proof.
  intros Hr. unfold remove_result.
  destruct (truthy r) as [p|] eqn:E; [|apply preserves_ret; apply _].
  assert (p ≠ q).
  { intros ->. apply Hr. by destruct r as [[|c r]|]; simplify_eq/=. }
  frame_with ltac:(by apply os_remove_keeps_at); keeps_at_leaf.
Qed.

Lemma sweep_user_dir_keeps_at q u :
  parent q ≠ user_dir_of u → preserves (keeps_at q) (sweep_user_dir os u).
Proof.
  intros Hq s r s'. unfold sweep_user_dir.
  unfold bind at 1, path_exists, gets at 1.
  destruct (bool_decide (is_Some (files s !! user_dir_of u))); simpl.
  - unfold bind at 1, glob, gets at 1.
    apply preserves_for_each_in; [apply _|]. intros p Hp.
    apply list_elem_of_filter in Hp as [Hp _].
    assert (p ≠ q) by (intros ->; done).
    frame_with ltac:(by apply os_remove_keeps_at); keeps_at_leaf.
  - by intros [= <- <-].
Qed.

Lemma clean_user_videos_keeps_at q u ps r :
  q ∉ ps → r ≠ Some q → parent q ≠ user_dir_of u →
  preserves (keeps_at q) (clean_user_videos os u ps r).
Proof.
  intros Hps Hr Hq. unfold clean_user_videos.
  apply preserves_try_except; [apply _ | | intros e; frame; keeps_at_leaf].
  apply preserves_bind; [apply _ | by apply remove_videos_keeps_at |].
  intros _.
  apply preserves_bind; [apply _ | by apply remove_result_keeps_at |].
  intros _. by apply sweep_user_dir_keeps_at.
Qed.

(** X7. The cleanup touches the disk only at the listed paths, at the result
    path and directly under the user's directory: every other path holds
    after the cleanup exactly what it held before.  It never creates
    anything, never changes the session table, and says nothing to the
    user. *)
Theorem X7_cleanup_footprint u ps r s q :
  q ∉ ps → r ≠ Some q → parent q ≠ user_dir_of u →
  let s' := (clean_user_videos os u ps r s).2 in
  files s' !! q = files s !! q
  ∧ files s' ⊆ files s
  ∧ user_videos s' = user_videos s
  ∧ shown (trace s') = shown (trace s).
Proof.
  intros Hps Hr Hq. cbv zeta.
  destruct (clean_user_videos os u ps r s) as [res s'] eqn:E. simpl.
  split; [|split; [|split]].
  - by apply (clean_user_videos_keeps_at q u ps r Hps Hr Hq _ _ _ E).
  - apply (clean_user_videos_shrinks _ _ _ _ _ _ _ E).
  - apply (clean_user_videos_quiet _ _ _ _ _ _ _ E).
  - destruct (clean_user_videos_quiet _ _ _ _ _ _ _ E) as [_ (t & Ht & Hsh)].
    by rewrite Ht, shown_app, Hsh, app_nil_r.
Qed.
End Footprint.
End FootprintFacts.

Module StageOutcomes.
Import Runtime VideoProcessor Bot Props Calls MoreProps.
Import MonadFacts WorldFacts FrameFacts CleanupFacts PipelineFacts.
Import HandlerFacts MoreFacts SessionFacts MergeFacts FootprintFacts.
Local Open Scope monad_scope.

Section Stages.
Variable os : OS.

Ltac keeps_at_leaf :=
  first [ apply keeps_at_record | apply keeps_at_bump_uuid
        | apply keeps_at_set_user_videos
        | apply keeps_at_insert; first [ done | by apply not_eq_sym ]
        | apply keeps_at_delete; first [ done | by apply not_eq_sym ] ].

Lemma apply_watermark_keeps_at q pos i o :
  o ≠ q → preserves (keeps_at q) (apply_watermark_at os pos i o).
Proof. intros Ho. unfold apply_watermark_at. frame; keeps_at_leaf. Qed.

Lemma merge_attempt_keeps_at q ps u l m w :
  l ≠ q → m ≠ q → w ≠ q →
  preserves (keeps_at q) (merge_attempt os ps u l m w).
Proof.
  intros Hl Hm Hw. unfold merge_attempt.
  frame_with ltac:(by apply apply_watermark_keeps_at); keeps_at_leaf.
Qed.

Lemma remove_list_file_keeps_at q l :
  l ≠ q → preserves (keeps_at q) (remove_list_file os l).
Proof.
  intros Hl. unfold remove_list_file.
  frame_with ltac:(by apply os_remove_keeps_at); keeps_at_leaf.
Qed.

Lemma merge_videos_keeps_at q ps u s res s1 :
  q ≠ user_dir_of u → q ≠ list_file_of os u s →
  q ≠ merged_path_of os u s → q ≠ watermarked_path_of os u s →
  merge_videos os ps u s = (res, s1) →
  files s1 !! q = files s !! q.
Proof.
  intros Hd Hl Hm Hw. rewrite merge_videos_unfold. intros E.
  assert (keeps_at q (prepared u s) s1) as H.
  { revert E. apply preserves_try_finally; [apply _ | |].
    - by apply merge_attempt_keeps_at.
    - by apply remove_list_file_keeps_at. }
  unfold keeps_at in H. rewrite H. simpl. by rewrite lookup_insert_ne.
Qed.

Lemma merge_videos_uuids ps u s res s1 :
  merge_videos os ps u s = (res, s1) →
  uuid_count s1 = 3 + uuid_count s.
Proof.
  rewrite merge_videos_unfold. intros E.
  assert (same_uuids (prepared u s) s1) as H.
  { revert E. apply preserves_try_finally; [apply _ | |];
      unfold merge_attempt, remove_list_file, apply_watermark,
        apply_watermark_at;
      frame; by unfold same_uuids. }
  by rewrite H.
Qed.

(** X8. The pipeline touches the disk only at the user's directory entry and
    at the three paths it has made up (list file, merged file, watermarked
    file): every other path, the inputs included, holds afterwards exactly
    what it held before, on success and on failure alike.  Each call takes
    three fresh identifiers and leaves the session table alone. *)
Theorem X8_pipeline_footprint ps u s q :
  q ≠ user_dir_of u → q ≠ list_file_of os u s →
  q ≠ merged_path_of os u s → q ≠ watermarked_path_of os u s →
  let s1 := (merge_videos os ps u s).2 in
  files s1 !! q = files s !! q
  ∧ uuid_count s1 = 3 + uuid_count s
  ∧ user_videos s1 = user_videos s.
Proof.
  intros Hd Hl Hm Hw. cbv zeta.
  destruct (merge_videos os ps u s) as [res s1] eqn:E. simpl.
  split; [by eapply merge_videos_keeps_at|].
  split; [by eapply merge_videos_uuids|].
  apply (merge_videos_quiet _ _ _ _ _ _ E).
Qed.

Lemma watermarked_neq_merged u s :
  watermarked_path_of os u s ≠ merged_path_of os u s.
Proof. intros H. apply path_join_inj in H. discriminate. Qed.

Lemma watermarked_neq_list_file u s :
  watermarked_path_of os u s ≠ list_file_of os u s.
Proof. intros H. apply path_join_inj in H. discriminate. Qed.

(** The [try] block once the concatenation has exited with 0. *)
Lemma finish_attempt_watermarks ps u s :
  returncode (concat_run os ps u s) = 0%Z →
  finish_attempt os ps u s (after_concat os ps u s)
  = if bool_decide (returncode (watermark_run os ps u s) ≠ 0%Z) then
      (inl "Failed to apply watermark",
       record_events
         [EvLog LvlError
            ("Error in merge_videos: " +:+ "Failed to apply watermark")]
         (record_events
            [EvLog LvlError
               ("Error applying watermark: " +:+ "Failed to apply watermark")]
            (record_events
               [EvLog LvlError
                  ("FFmpeg watermark error: "
                   +:+ stderr (watermark_run os ps u s))]
               (after_watermark os ps u s))))
    else (inr (watermarked_path_of os u s), after_watermark os ps u s).
Proof.
  intros Hc. unfold finish_attempt, apply_watermark, apply_watermark_at.
  run. rewrite bool_decide_false by (by intros ?). simpl.
  fold (watermark_run os ps u s). unfold after_watermark.
  destruct (output (watermark_run os ps u s)); simpl;
    by case_bool_decide.
Qed.

Lemma after_watermark_trace ps u s :
  trace (after_watermark os ps u s)
  = trace (after_concat os ps u s) ++
    [ EvLog LvlInfo ("Applying watermark to " +:+ merged_path_of os u s);
      EvSpawn (watermark_cmd POSITION (merged_path_of os u s)
                             (watermarked_path_of os u s)) ].
Proof.
  unfold after_watermark.
  destruct (output (watermark_run os ps u s)); simpl;
    by rewrite <- !app_assoc.
Qed.

Lemma after_watermark_list_file ps u s :
  ∃ b, files (after_watermark os ps u s) !! list_file_of os u s
       = Some (File b).
Proof.
  destruct (after_concat_list_file os ps u s) as [b Hb].
  unfold after_watermark.
  destruct (output (watermark_run os ps u s)); simpl; [|by exists b].
  rewrite lookup_insert_ne by apply watermarked_neq_list_file. by exists b.
Qed.

Lemma after_watermark_merged ps u s c :
  output (concat_run os ps u s) = Some c →
  files (after_watermark os ps u s) !! merged_path_of os u s = Some (File c).
Proof.
  intros Hc.
  assert (files (after_concat os ps u s) !! merged_path_of os u s
          = Some (File c)) as Hm.
  { unfold after_concat. rewrite Hc. simpl. apply lookup_insert_eq. }
  unfold after_watermark.
  destruct (output (watermark_run os ps u s)); simpl; [|done].
  by rewrite lookup_insert_ne by apply watermarked_neq_merged.
Qed.

Lemma after_watermark_result ps u s c :
  output (watermark_run os ps u s) = Some c →
  files (after_watermark os ps u s) !! watermarked_path_of os u s
  = Some (File c).
Proof.
  intros Hc. unfold after_watermark. rewrite Hc. simpl.
  apply lookup_insert_eq.
Qed.

(** X9. The concatenation exits with 0 and the watermark stage does not:
    the pipeline raises "Failed to apply watermark" after exactly two
    subprocesses, the concatenation and then the watermark run that reads
    the merged file; the tool's error stream is logged; the list file is
    removed, and the merged file the concatenation wrote is still on
    disk. *)
Theorem X9_watermark_failure ps u s :
  returncode (concat_run os ps u s) = 0%Z →
  returncode (watermark_run os ps u s) ≠ 0%Z →
  rm_error os (list_file_of os u s) = None →
  let out := merge_videos os ps u s in
  out.1 = inl "Failed to apply watermark"
  ∧ spawned (trace out.2)
    = spawned (trace s) ++
      [ merge_cmd (list_file_of os u s) (merged_path_of os u s);
        watermark_cmd POSITION (merged_path_of os u s)
                      (watermarked_path_of os u s) ]
  ∧ EvLog LvlError
      ("FFmpeg watermark error: " +:+ stderr (watermark_run os ps u s))
    ∈ trace out.2
  ∧ files out.2 !! list_file_of os u s = None
  ∧ (∀ c, output (concat_run os ps u s) = Some c →
          files out.2 !! merged_path_of os u s = Some (File c)).
Proof.
  intros Hc Hw Hrm. cbv zeta. rewrite merge_videos_unfold.
  unfold try_finally. rewrite merge_attempt_eval.
  rewrite finish_attempt_watermarks, bool_decide_true by done.
  destruct (after_watermark_list_file ps u s) as [b Hb].
  erewrite remove_list_file_ok; [|exact Hb|exact Hrm]. simpl.
  split; [done|]. split; [|split; [|split]].
  - rewrite after_watermark_trace, after_concat_trace.
    by rewrite <- !app_assoc, !spawned_app.
  - rewrite !elem_of_app. do 3 left. right. left.
  - apply lookup_delete_eq.
  - intros c Hout. rewrite lookup_delete_ne.
    + by apply after_watermark_merged.
    + intros H. by apply (merged_neq_list_file os u s).
Qed.

(** X10. Both stages exit with 0: the pipeline returns the watermarked path
    after exactly two subprocesses, the concatenation and then the
    watermark run that reads the merged file; the list file is removed; what
    the watermark run wrote is at the returned path, and the merged
    intermediate is still on disk, left to the sweep of the cleanup. *)
Theorem X10_pipeline_success ps u s :
  returncode (concat_run os ps u s) = 0%Z →
  returncode (watermark_run os ps u s) = 0%Z →
  rm_error os (list_file_of os u s) = None →
  let out := merge_videos os ps u s in
  out.1 = inr (watermarked_path_of os u s)
  ∧ spawned (trace out.2)
    = spawned (trace s) ++
      [ merge_cmd (list_file_of os u s) (merged_path_of os u s);
        watermark_cmd POSITION (merged_path_of os u s)
                      (watermarked_path_of os u s) ]
  ∧ files out.2 !! list_file_of os u s = None
  ∧ (∀ c, output (watermark_run os ps u s) = Some c →
          files out.2 !! watermarked_path_of os u s = Some (File c))
  ∧ (∀ c, output (concat_run os ps u s) = Some c →
          files out.2 !! merged_path_of os u s = Some (File c)).
Proof.
  intros Hc Hw Hrm. cbv zeta. rewrite merge_videos_unfold.
  unfold try_finally. rewrite merge_attempt_eval.
  rewrite finish_attempt_watermarks by done.
  rewrite bool_decide_false by (by intros ?).
  destruct (after_watermark_list_file ps u s) as [b Hb].
  erewrite remove_list_file_ok; [|exact Hb|exact Hrm]. simpl.
  split; [done|]. split; [|split; [|split]].
  - rewrite after_watermark_trace, after_concat_trace.
    by rewrite <- !app_assoc, !spawned_app.
  - apply lookup_delete_eq.
  - intros c Hout. rewrite lookup_delete_ne.
    + by apply after_watermark_result.
    + intros H. by apply (watermarked_neq_list_file u s).
  - intros c Hout. rewrite lookup_delete_ne.
    + by apply after_watermark_merged.
    + intros H. by apply (merged_neq_list_file os u s).
Qed.
End Stages.
End StageOutcomes.

Module UploadFacts.
Import Runtime VideoProcessor Bot Props Calls MoreProps.
Import MonadFacts WorldFacts FrameFacts CleanupFacts PipelineFacts.
Import OutcomeFacts HandlerFacts MoreFacts SessionFacts MergeFacts.
Import FootprintFacts StageOutcomes.
Local Open Scope monad_scope.

Section Uploads.
Variable os : OS.

Lemma stored_path_inj u n m :
  Inj (=) (=) (uuid4 os) → stored_path os u n = stored_path os u m → n = m.
Proof.
  intros Hinj H. unfold stored_path in H.
  apply path_join_inj, append_inj_r in H. by apply Hinj.
Qed.

Lemma handle_video_keeps_file p u v :
  p ≠ user_dir_of u → preserves (keeps_file p) (handle_video os u v).
Proof.
  intros Hp.
  unfold handle_video, store_video, download_to_drive, reply_text, edit_text.
  frame;
    first [ apply keeps_file_record | apply keeps_file_bump_uuid
          | apply keeps_file_insert | apply keeps_file_set_user_videos
          | apply keeps_file_mkdir; by apply not_eq_sym ].
Qed.

(** Every stored upload is on disk once the uploads are through. *)
Lemma uploads_are_stored u vs s p :
  Forall accepted vs →
  p ∈ map (stored_path os u) (seq (uuid_count s) (length vs)) →
  ∃ b, files (for_each vs (handle_video os u) s).2 !! p = Some (File b).
Proof.
  intros Hvs. revert s.
  induction Hvs as [|v vs [Hsmall [bytes Hget]] _ IH]; intros s; simpl.
  - by intros []%elem_of_nil.
  - destruct (handle_video_accepts os u v s bytes Hsmall Hget)
      as (s1 & E1 & _ & Hf1 & Hn1 & _).
    unfold bind. rewrite E1.
    intros [->|Hp]%elem_of_cons.
    + destruct (for_each vs (handle_video os u) s1) as [r s'] eqn:E'.
      assert (keeps_file (stored_path os u (uuid_count s)) s1 s') as Hk.
      { revert E'. apply preserves_for_each; [apply _|]. intros w.
        apply handle_video_keeps_file. apply path_join_neq. }
      apply Hk. exists bytes. rewrite Hf1. apply lookup_insert_eq.
    + apply IH. by rewrite Hn1.
Qed.

(** X11. After [N] accepted uploads in a row the user's pending list is the
    old list followed by the [N] stored paths in upload order; each of them
    is a regular file on disk; and when the identifier source never repeats
    itself the [N] paths are pairwise distinct. *)
Theorem X11_uploads_in_order u vs s :
  Forall accepted vs →
  let out := for_each vs (handle_video os u) s in
  let new := map (stored_path os u) (seq (uuid_count s) (length vs)) in
  out.1 = inr tt
  ∧ pending u out.2 = pending u s ++ new
  ∧ length (pending u out.2) = length (pending u s) + length vs
  ∧ (∀ p, p ∈ new → ∃ b, files out.2 !! p = Some (File b))
  ∧ (Inj (=) (=) (uuid4 os) → NoDup new).
Proof.
  intros Hvs. cbv zeta.
  destruct (uploads_accumulate_in_order os u vs s Hvs) as (s' & E & Hp & Hl).
  rewrite E. simpl. split; [done|]. split; [done|]. split; [done|]. split.
  - intros p Hin.
    pose proof (uploads_are_stored u vs s p Hvs Hin) as H.
    by rewrite E in H.
  - intros Hinj. apply NoDup_fmap_2_strong; [|apply NoDup_seq].
    intros n m _ _. by apply stored_path_inj.
Qed.

(** The handler's trace continues that of the pipeline it has run. *)
Lemma merge_command_extends_pipeline u s :
  2 ≤ length (pending u s) →
  extends (merge_videos os (pending u s) u
             (record_events [EvReply MSG_MERGING] s)).2
          (merge_command os u s).2.
Proof.
  intros Hlen. rewrite merge_command_runs by done.
  destruct (merge_videos os (pending u s) u
              (record_events [EvReply MSG_MERGING] s)) as [[e|r] s1]; simpl.
  - by eexists [_; _]; simpl; rewrite <- app_assoc.
  - unfold open_rb, bind, gets, ret, raise. simpl.
    destruct (files s1 !! r) as [[c|]|]; simpl.
    + run_cleanup.
      destruct (clean_user_videos_quiet _ _ _ _ _ _ _ Ec)
        as [_ (tc & Htc & _)].
      eexists. simpl. rewrite Htc. simpl. by rewrite <- !app_assoc.
    + eexists. simpl. by rewrite <- !app_assoc.
    + eexists. simpl. by rewrite <- !app_assoc.
Qed.

Lemma remove_list_file_extends l : preserves extends (remove_list_file os l).
Proof.
  unfold remove_list_file.
  frame; first [apply extends_record | apply extends_set_files].
Qed.

(** The pipeline starts by writing the list file for its inputs. *)
Lemma merge_videos_writes_manifest ps u s :
  EvWriteFile (list_file_of os u s) (unlines (manifest_lines os ps))
  ∈ trace (merge_videos os ps u s).2.
Proof.
  rewrite merge_videos_unfold. unfold try_finally.
  rewrite merge_attempt_eval.
  destruct (finish_attempt os ps u s (after_concat os ps u s))
    as [r sa] eqn:E.
  destruct (finish_attempt_quiet _ _ _ _ _ _ _ E) as [_ (t & Ht & _)].
  assert (EvWriteFile (list_file_of os u s) (unlines (manifest_lines os ps))
          ∈ trace sa) as Hin.
  { rewrite Ht, after_concat_trace, list_file_text_lines.
    rewrite !elem_of_app. left. right. left. }
  destruct (remove_list_file os (list_file_of os u s) sa) as [[e|[]] sf] eqn:F;
    simpl; destruct (remove_list_file_extends _ _ _ _ F) as [t' Ht'];
    rewrite Ht', elem_of_app; by left.
Qed.

(** X12. The videos are merged in the order they were sent: after accepted
    uploads (at least two pending in all) a merge request writes a list file
    that names, line by line and in this order, the absolute paths of the
    uploads pending before followed by those just stored. *)
Theorem X12_merged_in_upload_order u vs s :
  Forall accepted vs →
  2 ≤ length (pending u s) + length vs →
  let s1 := (for_each vs (handle_video os u) s).2 in
  let all := pending u s
             ++ map (stored_path os u) (seq (uuid_count s) (length vs)) in
  EvWriteFile (list_file_of os u s1) (unlines (manifest_lines os all))
  ∈ trace (merge_command os u s1).2.
Proof.
  intros Hvs Hlen. cbv zeta.
  destruct (uploads_accumulate_in_order os u vs s Hvs) as (s1 & E & Hp & Hl).
  rewrite E. simpl. rewrite <- Hp.
  destruct (merge_command_extends_pipeline u s1) as [t Ht]; [lia|].
  rewrite Ht, elem_of_app. left.
  apply (merge_videos_writes_manifest (pending u s1) u
           (record_events [EvReply MSG_MERGING] s1)).
Qed.
End Uploads.
End UploadFacts.

Module IsolationFacts.
Import Runtime VideoProcessor Bot Props Calls MoreProps.
Import MonadFacts WorldFacts FrameFacts CleanupFacts PipelineFacts.
Import OutcomeFacts HandlerFacts MoreFacts SessionFacts MergeFacts.
Import FootprintFacts StageOutcomes UploadFacts.
Local Open Scope monad_scope.

Lemma suffix_mismatch (a b : string) : a +:+ ".mp4" ≠ b +:+ ".txt".
Proof.
  revert b. induction a as [|x a IH]; intros [|y b] H.
  - discriminate.
  - apply (f_equal String.length) in H. rewrite !length_append in H.
    simpl in H. lia.
  - apply (f_equal String.length) in H. rewrite !length_append in H.
    simpl in H. lia.
  - change (String x (a +:+ ".mp4") = String y (b +:+ ".txt")) in H.
    injection H as _ H. by apply (IH b).
Qed.

Section Isolation.
Variable os : OS.
Hypothesis Hplain : plain_ids os.

Lemma parent_stored_path u n : parent (stored_path os u n) = user_dir_of u.
Proof.
  apply parent_path_join. rewrite has_slash_append. by rewrite Hplain.
Qed.

Lemma parent_list_file u s : parent (list_file_of os u s) = user_dir_of u.
Proof.
  apply parent_path_join. rewrite !has_slash_append. by rewrite Hplain.
Qed.

Lemma parent_merged_path u s : parent (merged_path_of os u s) = user_dir_of u.
Proof.
  apply parent_path_join. rewrite !has_slash_append. by rewrite Hplain.
Qed.

Lemma parent_watermarked_path u s :
  parent (watermarked_path_of os u s) = user_dir_of u.
Proof.
  apply parent_path_join. rewrite !has_slash_append. by rewrite Hplain.
Qed.

Lemma store_video_returns f u :
  returns (store_video os f u) (λ p, parent p = user_dir_of u).
Proof.
  intros s p s'. unfold store_video, download_to_drive.
  cbv [bind mkdir uuid gets modify ret raise emit log].
  destruct f as [e|bytes]; [done|]. intros [= <- _].
  apply parent_stored_path.
Qed.

(** X13. Everything the bot writes for a user lies directly in that user's
    own directory, and different users have different directories.  With
    identifiers that contain no separator: the path [store_video] returns
    and the path [merge_videos] returns have the user's directory as
    parent, and so have the list file and the merged file of the pipeline;
    the directory itself lies directly under the scratch root; and two
    users share a directory only if they are the same user. *)
Theorem X13_files_live_in_the_users_directory u u' f ps s :
  returns (store_video os f u) (λ p, parent p = user_dir_of u)
  ∧ returns (merge_videos os ps u) (λ r, parent r = user_dir_of u)
  ∧ parent (list_file_of os u s) = user_dir_of u
  ∧ parent (merged_path_of os u s) = user_dir_of u
  ∧ parent (user_dir_of u) = TEMP_DIR
  ∧ (user_dir_of u = user_dir_of u' → u = u').
Proof.
  split; [apply store_video_returns|].
  split.
  { intros s0 r s1 E. rewrite (merge_videos_returns _ _ _ _ _ _ E).
    apply parent_watermarked_path. }
  split; [apply parent_list_file|].
  split; [apply parent_merged_path|].
  split; [apply parent_user_dir_of | apply user_dir_of_inj].
Qed.

(** *** What a handler of one user does to the disk elsewhere *)

(** The three ways an upload can end. *)
Lemma handle_video_cases u v s :
  let s' := (handle_video os u v s).2 in
  let p := stored_path os u (uuid_count s) in
  (user_videos s' = user_videos s
   ∧ (files s' = files s ∨ files s' = <[user_dir_of u := Dir]> (files s)))
  ∨ (∃ bytes,
       user_videos s' = <[u := pending u s ++ [p]]> (user_videos s)
       ∧ files s' = <[p := File bytes]> (<[user_dir_of u := Dir]> (files s))).
Proof.
  cbv zeta. unfold handle_video.
  destruct (over_limit (file_size v)); [left; split; [done | by left]|].
  destruct (get_file v) as [e|[e|bytes]];
    cbv [try_except bind reply_text edit_text emit modify gets log ret raise
         store_video download_to_drive mkdir uuid]; simpl.
  - left. split; [done | by left].
  - left. split; [done | by right].
  - right. exists bytes. split; [apply record_upload | done].
Qed.

Lemma handle_video_elsewhere u v s q :
  q ≠ user_dir_of u → parent q ≠ user_dir_of u →
  files (handle_video os u v s).2 !! q = files s !! q.
Proof.
  intros Hd Hq.
  destruct (handle_video_cases u v s) as [[_ [->| ->]]|(b & _ & ->)].
  - done.
  - by rewrite lookup_insert_ne.
  - rewrite !lookup_insert_ne; [done..|].
    intros <-. by rewrite parent_stored_path in Hq.
Qed.

Lemma reset_command_elsewhere u s q :
  q ∉ pending u s → parent q ≠ user_dir_of u →
  files (reset_command os u s).2 !! q = files s !! q.
Proof.
  intros Hps Hq. unfold reset_command. unfold bind at 1, gets at 1.
  destruct (has_videos u s); [|done].
  cbv [bind gets reply_text emit modify].
  destruct (clean_user_videos os u (pending u s) None s) as [[e|[]] sc] eqn:Ec;
    simpl;
    by apply (clean_user_videos_keeps_at os q u _ None Hps ltac:(done) Hq
                _ _ _ Ec).
Qed.

Lemma merge_command_elsewhere u s q :
  q ≠ user_dir_of u → q ∉ pending u s → parent q ≠ user_dir_of u →
  files (merge_command os u s).2 !! q = files s !! q.
Proof.
  intros Hd Hps Hq.
  destruct (too_few u s) eqn:Hfew.
  { unfold merge_command, bind, gets. by rewrite Hfew. }
  apply too_few_false_inv in Hfew.
  rewrite merge_command_runs by done.
  destruct (merge_videos os (pending u s) u
              (record_events [EvReply MSG_MERGING] s)) as [[e|r] s1] eqn:Hrun.
  all: assert (files s1 !! q = files s !! q) as H1.
  1,3: apply (merge_videos_keeps_at os q _ _ _ _ _ Hd) in Hrun; [done|..];
    intros ->; apply Hq;
    [apply parent_list_file | apply parent_merged_path
    | apply parent_watermarked_path].
  - done.
  - cbv zeta. unfold open_rb, bind, gets, ret, raise. simpl.
    destruct (files s1 !! r) as [[c|]|] eqn:E; simpl; [|done..].
    assert (Some r ≠ Some q) as Hr.
    { intros [= ->]. apply Hq.
      rewrite (merge_videos_returns _ _ _ _ _ _ Hrun).
      apply parent_watermarked_path. }
    destruct (merge_videos_quiet _ _ _ _ _ _ Hrun) as [Huv _].
    assert (q ∉ pending u
                  (record_events [EvReplyVideo r c CAPTION]
                     (record_events [EvEdit MSG_MERGE_COMPLETE] s1)))
      as Hps1.
    { unfold pending. simpl. rewrite Huv. exact Hps. }
    destruct (clean_user_videos os u _ (Some r) _) as [[e|[]] sc] eqn:Ec;
      simpl; rewrite <- H1;
      exact (clean_user_videos_keeps_at os q u _ (Some r) Hps1 Hr Hq
               _ _ _ Ec).
Qed.

(** X14. The scratch directories are not shared: a user's upload, merge
    request or reset request leaves every path directly under another user's
    directory exactly as it was, provided the user's own pending paths lie
    in the user's own directory and the identifiers contain no separator. *)
Theorem X14_other_users_files_untouched u u' v s q :
  (∀ p, p ∈ pending u s → parent p = user_dir_of u) →
  u' ≠ u →
  parent q = user_dir_of u' →
  files (handle_video os u v s).2 !! q = files s !! q
  ∧ files (merge_command os u s).2 !! q = files s !! q
  ∧ files (reset_command os u s).2 !! q = files s !! q.
Proof.
  intros Hown Hu Hq.
  assert (parent q ≠ user_dir_of u) as Hpar.
  { rewrite Hq. intros H%user_dir_of_inj. done. }
  assert (q ≠ user_dir_of u) as Hd.
  { intros ->. rewrite parent_user_dir_of in Hq.
    symmetry in Hq. by apply user_dir_of_not_root in Hq. }
  assert (q ∉ pending u s) as Hps.
  { intros Hin. by apply Hown in Hin. }
  split; [by apply handle_video_elsewhere|].
  split; [by apply merge_command_elsewhere | by apply reset_command_elsewhere].
Qed.

(** *** Pending paths stay stored uploads *)

Lemma os_remove_keeps_file p p' :
  p' ≠ p → preserves (keeps_file p) (os_remove os p').
Proof.
  intros Hp. unfold os_remove.
  frame; first [ apply keeps_file_record | idtac ].
  intros [b Hb]. exists b. simpl. by rewrite lookup_delete_ne.
Qed.

Lemma merge_videos_keeps_file p ps u s res s1 :
  p ≠ user_dir_of u → p ≠ list_file_of os u s →
  merge_videos os ps u s = (res, s1) → keeps_file p s s1.
Proof.
  intros Hd Hl. rewrite merge_videos_unfold. intros E.
  transitivity (prepared u s).
  { intros [b Hb]. exists b. simpl. by rewrite lookup_insert_ne. }
  revert E. apply preserves_try_finally; [apply _ | |].
  - unfold merge_attempt.
    frame_with ltac:(apply apply_watermark_keeps_file);
      first [ apply keeps_file_record | apply keeps_file_insert ].
  - unfold remove_list_file.
    frame_with ltac:(apply os_remove_keeps_file; by apply not_eq_sym);
      apply keeps_file_record.
Qed.

Lemma stored_path_neq_list_file u n s :
  stored_path os u n ≠ list_file_of os u s.
Proof.
  unfold stored_path, list_file_of. intros H%path_join_inj.
  rewrite <- append_assoc in H. by apply suffix_mismatch in H.
Qed.

(** A merge request either empties the user's list or leaves it, and the
    regular files that are neither the user's directory nor the list file,
    as they were. *)
Lemma merge_command_own u s :
  let s' := (merge_command os u s).2 in
  pending u s' = []
  ∨ (pending u s' = pending u s
     ∧ ∀ p, p ≠ user_dir_of u → p ≠ list_file_of os u s → keeps_file p s s').
Proof.
  cbv zeta.
  destruct (too_few u s) eqn:Hfew.
  { unfold merge_command, bind, gets. rewrite Hfew. right.
    split; [done | by intros p _ _ H]. }
  apply too_few_false_inv in Hfew.
  rewrite merge_command_runs by done.
  destruct (merge_videos os (pending u s) u
              (record_events [EvReply MSG_MERGING] s)) as [[e|r] s1] eqn:Hrun;
    destruct (merge_videos_quiet _ _ _ _ _ _ Hrun) as [Huv _];
    assert (∀ p, p ≠ user_dir_of u → p ≠ list_file_of os u s →
                 keeps_file p s s1) as Hk
      by (intros p Hd Hl;
          exact (merge_videos_keeps_file p _ _
                   (record_events [EvReply MSG_MERGING] s) _ _ Hd Hl Hrun)).
  - right. split; [unfold pending; simpl; by rewrite Huv | exact Hk].
  - cbv zeta. unfold open_rb, bind, gets, ret, raise. simpl.
    destruct (files s1 !! r) as [[c|]|] eqn:E; simpl.
    + run_cleanup. left. unfold pending. simpl. by rewrite lookup_insert_eq.
    + right. split; [unfold pending; simpl; by rewrite Huv | exact Hk].
    + right. split; [unfold pending; simpl; by rewrite Huv | exact Hk].
Qed.

Lemma others_pending u u' s s' :
  others_same u s s' → u' ≠ u → pending u' s' = pending u' s.
Proof. intros H Hu. unfold pending. by rewrite H. Qed.

(** The pending paths of another user are out of reach of [u]'s handlers. *)
Lemma foreign_path u u' s p :
  stored_sessions os s → u' ≠ u → p ∈ pending u' s →
  p ≠ user_dir_of u ∧ (p ∉ pending u s) ∧ parent p ≠ user_dir_of u.
Proof.
  intros Hinv Hu Hin. destruct (Hinv u' p Hin) as [[n ->] _].
  split; [|split].
  - intros H. apply (f_equal parent) in H.
    rewrite parent_stored_path, parent_user_dir_of in H.
    by apply user_dir_of_not_root in H.
  - intros Hin'. destruct (Hinv u _ Hin') as [[m Hm] _].
    apply (f_equal parent) in Hm. rewrite !parent_stored_path in Hm.
    by apply user_dir_of_inj in Hm.
  - rewrite parent_stored_path. intros H%user_dir_of_inj. done.
Qed.

Lemma stored_sessions_handle_video u v s :
  stored_sessions os s → stored_sessions os (handle_video os u v s).2.
Proof.
  intros Hinv u' p Hin. destruct (decide (u' = u)) as [->|Hu].
  - destruct (handle_video_cases u v s) as [[Huv Hf]|(bytes & Huv & Hf)].
    + assert (p ∈ pending u s) as Hold.
      { unfold pending in *. by rewrite Huv in Hin. }
      destruct (Hinv u p Hold) as [[n ->] [b Hb]]. split; [by exists n|].
      exists b. destruct Hf as [-> | ->]; [done|].
      rewrite lookup_insert_ne; [done|]. apply not_eq_sym, path_join_neq.
    + assert (p ∈ pending u s ++ [stored_path os u (uuid_count s)]) as Hall.
      { unfold pending at 1 in Hin. by rewrite Huv, lookup_insert_eq in Hin. }
      rewrite Hf.
      destruct (decide (stored_path os u (uuid_count s) = p)) as [<-|Hne].
      { split; [by eexists|]. exists bytes. apply lookup_insert_eq. }
      apply elem_of_app in Hall as [Hold|Hnew%list_elem_of_singleton];
        [|by subst].
      destruct (Hinv u p Hold) as [[n ->] [b Hb]]. split; [by exists n|].
      exists b. rewrite !lookup_insert_ne; [done | | done].
      apply not_eq_sym, path_join_neq.
  - destruct (handle_video os u v s) as [r s'] eqn:E.
    pose proof (handle_video_others os _ _ _ _ _ E) as Hoth. simpl in *.
    rewrite (others_pending u u' s s' Hoth Hu) in Hin.
    destruct (foreign_path u u' s p Hinv Hu Hin) as (Hd & _ & Hpar).
    destruct (Hinv u' p Hin) as [Hn [b Hb]]. split; [done|]. exists b.
    pose proof (handle_video_elsewhere u v s p Hd Hpar) as H.
    rewrite E in H. simpl in H. by rewrite H.
Qed.

Lemma stored_sessions_merge_command u s :
  stored_sessions os s → stored_sessions os (merge_command os u s).2.
Proof.
  intros Hinv u' p Hin. destruct (decide (u' = u)) as [->|Hu].
  - assert (∀ q, q ∈ pending u s → q ≠ user_dir_of u
                 ∧ q ≠ list_file_of os u s) as Hq.
    { intros q Hq. destruct (Hinv u q Hq) as [[n ->] _]. split.
      - apply path_join_neq.
      - apply stored_path_neq_list_file. }
    destruct (merge_command_own u s) as [Hnil|[Hsame Hk]].
    { rewrite Hnil in Hin. by apply elem_of_nil in Hin. }
    rewrite Hsame in Hin. destruct (Hq p Hin) as [Hd Hl].
    destruct (Hinv u p Hin) as [Hn Hb]. split; [done | by apply Hk].
  - destruct (merge_command os u s) as [r s'] eqn:E.
    pose proof (merge_command_others os _ _ _ _ E) as Hoth. simpl in *.
    rewrite (others_pending u u' s s' Hoth Hu) in Hin.
    destruct (foreign_path u u' s p Hinv Hu Hin) as (Hd & Hps & Hpar).
    destruct (Hinv u' p Hin) as [Hn [b Hb]]. split; [done|]. exists b.
    pose proof (merge_command_elsewhere u s p Hd Hps Hpar) as H.
    rewrite E in H. simpl in H. by rewrite H.
Qed.

Lemma stored_sessions_reset_command u s :
  stored_sessions os s → stored_sessions os (reset_command os u s).2.
Proof.
  intros Hinv u' p Hin. destruct (decide (u' = u)) as [->|Hu].
  - rewrite reset_command_clears in Hin. by apply elem_of_nil in Hin.
  - destruct (reset_command os u s) as [r s'] eqn:E.
    pose proof (reset_command_others os _ _ _ _ E) as Hoth. simpl in *.
    rewrite (others_pending u u' s s' Hoth Hu) in Hin.
    destruct (foreign_path u u' s p Hinv Hu Hin) as (Hd & Hps & Hpar).
    destruct (Hinv u' p Hin) as [Hn [b Hb]]. split; [done|]. exists b.
    pose proof (reset_command_elsewhere u s p Hps Hpar) as H.
    rewrite E in H. simpl in H. by rewrite H.
Qed.
End Isolation.
End IsolationFacts.

Module RunFacts.
Import Runtime VideoProcessor Bot Props Calls MoreProps.
Import MonadFacts WorldFacts FrameFacts CleanupFacts PipelineFacts.
Import OutcomeFacts HandlerFacts MoreFacts SessionFacts MergeFacts.
Import FootprintFacts StageOutcomes UploadFacts IsolationFacts.
Local Open Scope monad_scope.

Section Runs.
Variable os : OS.

Lemma stored_sessions_record evs s :
  stored_sessions os s → stored_sessions os (record_events evs s).
Proof. done. Qed.

Lemma stored_sessions_run_call c s :
  plain_ids os →
  stored_sessions os s → stored_sessions os (run_call os c s).2.
Proof.
  intros Hplain Hinv. destruct c as [| | |u v|u|u]; simpl.
  - done.
  - done.
  - done.
  - by apply stored_sessions_handle_video.
  - by apply stored_sessions_merge_command.
  - by apply stored_sessions_reset_command.
Qed.

(** X15. No dangling uploads: if every pending path of every user is a
    stored upload of that user with a regular file behind it, the same holds
    after any sequence of handler runs (uploads, merge and reset requests of
    any users in any order, informational replies), whatever the media tool
    and the operating system do (identifiers without separator).  The
    pending lists the bot builds from an empty session table therefore never
    name a missing file. *)
Theorem X15_pending_paths_stay_stored calls s :
  plain_ids os →
  stored_sessions os s →
  stored_sessions os (after_calls os calls s).
Proof.
  intros Hplain. unfold after_calls. revert s.
  induction calls as [|c calls IH]; intros s Hinv; simpl; [done|].
  apply IH. by apply stored_sessions_run_call.
Qed.

(** X16. A reset request sweeps the user's directory: with pending uploads,
    the directory in place, no pending path naming a directory and no
    removal refused, no regular file is left directly under the user's
    directory afterwards, leftovers of failed merges included, and the
    pending list is empty. *)
Theorem X16_reset_sweeps_the_directory u s :
  pending u s ≠ [] →
  (∀ p, rm_error os p = None) →
  (∀ p, p ∈ pending u s → files s !! p ≠ Some Dir) →
  files s !! user_dir_of u = Some Dir →
  let s' := (reset_command os u s).2 in
  pending u s' = []
  ∧ ∀ p b, parent p = user_dir_of u → files s' !! p ≠ Some (File b).
Proof.
  intros Hne Hrm Hnd Hdir. cbv zeta.
  split; [apply reset_command_clears|].
  unfold reset_command. unfold bind at 1, gets at 1.
  rewrite has_videos_true by done.
  cbv [bind gets reply_text emit modify].
  destruct (remove_videos_ok os (pending u s) s) as (s1 & E1 & Sh1 & N1).
  { intros p Hp. split; [apply Hrm | by apply Hnd]. }
  destruct (sweep_user_dir_ok os u s1) as (s3 & E3 & Sh3 & N3).
  unfold clean_user_videos, try_except, bind, remove_result. simpl.
  rewrite E1. unfold ret. rewrite E3. simpl.
  intros p b Hp. apply N3; [|done|apply Hrm].
  exists Dir. by apply (remove_videos_keeps_dir _ _ _ _ _ _ E1).
Qed.
End Runs.
End RunFacts.

(** ** The further theorems at work on the concrete runs *)

Module MoreWitnesses.
Import Runtime VideoProcessor Bot Props Calls MoreProps.
Import Scenario MoreScenario.
Import MoreFacts SessionFacts MergeFacts FootprintFacts StageOutcomes.
Import UploadFacts IsolationFacts RunFacts.

Lemma names_plain : plain_ids os_fine.
Proof.
  intros n. change (has_slash ("id" +:+ pretty n) = false).
  rewrite has_slash_append. by rewrite pretty_nat_no_slash.
Qed.

Lemma names_inj : Inj (=) (=) (uuid4 os_fine).
Proof.
  intros n m H. change ("id" +:+ pretty n = "id" +:+ pretty m) in H.
  apply (inj (String.append "id")) in H. by apply (inj pretty) in H.
Qed.

Lemma two_users_pending : pending uid two_users = [video_a; video_b].
Proof. reflexivity. Qed.

Lemma fresh_stored os : stored_sessions os fresh.
Proof. intros u p Hin. by apply elem_of_nil in Hin. Qed.

Lemma X2_witness :
  user_videos (handle_video os_fine uid small_video two_users).2 !! other_uid
  = Some [video_c]
  ∧ user_videos (merge_command os_fine uid two_users).2 !! other_uid
    = Some [video_c]
  ∧ user_videos (reset_command os_fine uid two_users).2 !! other_uid
    = Some [video_c].
Proof.
  destruct (X2_other_users_untouched os_fine uid other_uid small_video
              two_users) as (H1 & H2 & H3).
  - discriminate.
  - rewrite H1, H2, H3. repeat split.
Defined.

Lemma X3_witness :
  user_videos (handle_video os_fine uid lost_video session).2
  = user_videos session
  ∧ user_videos (handle_video os_fine uid broken_video session).2
    = user_videos session.
Proof.
  split.
  - destruct (X3_failed_download_not_recorded os_fine uid lost_video session
                "Timed out") as (_ & H & _).
    + vm_compute. discriminate.
    + left. reflexivity.
    + exact H.
  - destruct (X3_failed_download_not_recorded os_fine uid broken_video session
                "Connection reset") as (_ & H & _).
    + vm_compute. discriminate.
    + right. reflexivity.
    + exact H.
Defined.

Lemma X4_witness :
  user_videos (merge_command os_silent uid session).2 = user_videos session
  ∧ files (merge_command os_silent uid session).2 !! video_a = Some (File "A").
Proof.
  destruct (X4_missing_result_is_a_failed_merge os_silent uid session
              "temp/7/watermarked_id4.mp4"
              (merge_videos os_silent (pending uid session) uid
                 (record_events [EvReply MSG_MERGING] session)).2)
    as (_ & Huv & Hf & _).
  - vm_compute. lia.
  - vm_compute. reflexivity.
  - intros c. vm_compute. discriminate.
  - split; [exact Huv|]. rewrite Hf. vm_compute. reflexivity.
Defined.

Lemma X5_witness :
  user_videos (merge_command os_fine uid session).2
  = <[uid := []]> (user_videos session)
  ∨ user_videos (merge_command os_fine uid session).2 = user_videos session.
Proof.
  destruct (X5_merge_all_or_nothing os_fine uid session) as [[H _]|[H _]].
  - vm_compute. lia.
  - by left.
  - by right.
Defined.

Lemma X7_witness :
  files (clean_user_videos os_fine uid [video_a; video_b] None two_users).2
    !! video_c = Some (File "C").
Proof.
  destruct (X7_cleanup_footprint os_fine uid [video_a; video_b] None
              two_users video_c) as (H & _).
  - rewrite !not_elem_of_cons. repeat split; [discriminate.. |].
    apply not_elem_of_nil.
  - discriminate.
  - vm_compute. discriminate.
  - rewrite H. reflexivity.
Defined.

Lemma X8_witness :
  files (merge_videos os_tool_fails [video_a; video_b] uid session).2
    !! video_a = Some (File "A").
Proof.
  destruct (X8_pipeline_footprint os_tool_fails [video_a; video_b] uid
              session video_a) as (H & _).
  - vm_compute. discriminate.
  - vm_compute. discriminate.
  - vm_compute. discriminate.
  - vm_compute. discriminate.
  - rewrite H. reflexivity.
Defined.

Lemma X9_witness :
  (merge_videos os_watermark_fails [video_a; video_b] uid session).1
  = inl "Failed to apply watermark"
  ∧ files (merge_videos os_watermark_fails [video_a; video_b] uid session).2
      !! "temp/7/merged_id3.mp4" = Some (File "merged").
Proof.
  destruct (X9_watermark_failure os_watermark_fails [video_a; video_b] uid
              session) as (H1 & _ & _ & _ & H2).
  - vm_compute. reflexivity.
  - vm_compute. discriminate.
  - reflexivity.
  - split; [exact H1|]. apply H2. vm_compute. reflexivity.
Defined.

Lemma X10_witness :
  (merge_videos os_fine [video_a; video_b] uid session).1
  = inr "temp/7/watermarked_id4.mp4"
  ∧ files (merge_videos os_fine [video_a; video_b] uid session).2
      !! "temp/7/watermarked_id4.mp4" = Some (File "video").
Proof.
  destruct (X10_pipeline_success os_fine [video_a; video_b] uid session)
    as (H1 & _ & _ & H2 & _).
  - vm_compute. reflexivity.
  - vm_compute. reflexivity.
  - reflexivity.
  - split; [exact H1|]. apply H2. vm_compute. reflexivity.
Defined.

Lemma two_small_accepted : Forall accepted [small_video; small_video].
Proof.
  repeat constructor; try (vm_compute; discriminate); by exists "bytes".
Qed.

Lemma X11_witness :
  pending uid (for_each [small_video; small_video]
                 (handle_video os_fine uid) fresh).2
  = ["temp/7/id0.mp4"; "temp/7/id1.mp4"]
  ∧ NoDup (map (stored_path os_fine uid) (seq 0 2)).
Proof.
  destruct (X11_uploads_in_order os_fine uid [small_video; small_video] fresh
              two_small_accepted) as (_ & H & _ & _ & Hnd).
  split; [rewrite H; reflexivity | apply Hnd, names_inj].
Defined.

Lemma X12_witness :
  EvWriteFile "temp/7/list_id2.txt"
    (unlines ["file '/srv/bot/temp/7/id0.mp4'";
              "file '/srv/bot/temp/7/id1.mp4'"])
  ∈ trace (merge_command os_fine uid
             (for_each [small_video; small_video]
                (handle_video os_fine uid) fresh).2).2.
Proof.
  apply (X12_merged_in_upload_order os_fine uid [small_video; small_video]
           fresh two_small_accepted).
  vm_compute. lia.
Defined.

Lemma X13_witness :
  parent (list_file_of os_fine uid session) = user_dir_of uid
  ∧ parent (merged_path_of os_fine uid session) = user_dir_of uid.
Proof.
  destruct (X13_files_live_in_the_users_directory os_fine names_plain
              uid other_uid (inr "bytes") [video_a; video_b] session)
    as (_ & _ & H1 & H2 & _).
  split; [exact H1 | exact H2].
Defined.

Lemma X14_witness :
  files (handle_video os_fine uid small_video two_users).2 !! video_c
  = Some (File "C")
  ∧ files (merge_command os_fine uid two_users).2 !! video_c
    = Some (File "C")
  ∧ files (reset_command os_fine uid two_users).2 !! video_c
    = Some (File "C").
Proof.
  destruct (X14_other_users_files_untouched os_fine names_plain uid other_uid
              small_video two_users video_c) as (H1 & H2 & H3).
  - intros p Hp. rewrite two_users_pending in Hp.
    rewrite !elem_of_cons, elem_of_nil in Hp.
    destruct Hp as [->|[->|[]]]; reflexivity.
  - discriminate.
  - reflexivity.
  - rewrite H1, H2, H3. repeat split.
Defined.

Lemma X15_witness :
  stored_sessions os_tool_fails
    (after_calls os_tool_fails
       [ CVideo uid small_video; CVideo other_uid small_video;
         CVideo uid small_video; CMerge uid; CStart; CReset other_uid ]
       fresh).
Proof.
  apply X15_pending_paths_stay_stored.
  - exact names_plain.
  - apply fresh_stored.
Defined.

Lemma X16_witness :
  files (merge_command os_tool_fails uid session).2
    !! "temp/7/merged_id3.mp4" = Some (File "partial")
  ∧ files (reset_command os_tool_fails uid
             (merge_command os_tool_fails uid session).2).2
      !! "temp/7/merged_id3.mp4" ≠ Some (File "partial").
Proof.
  split; [vm_compute; reflexivity|].
  destruct (X16_reset_sweeps_the_directory os_tool_fails uid
              (merge_command os_tool_fails uid session).2) as [_ H].
  - vm_compute. discriminate.
  - intros p. reflexivity.
  - intros p Hp.
    assert (pending uid (merge_command os_tool_fails uid session).2
            = [video_a; video_b]) as E by (vm_compute; reflexivity).
    rewrite E in Hp. rewrite !elem_of_cons, elem_of_nil in Hp.
    destruct Hp as [->|[->|[]]]; vm_compute; discriminate.
  - vm_compute. reflexivity.
  - apply H. vm_compute. reflexivity.
Defined.

End MoreWitnesses.
